(** * AI-NetworkDialogue: document store and connection registry

    A shallow embedding of [app/storage/json_storage.py],
    [app/websocket/connection_manager.py] and the preset creation route of
    [app/api/preset.py], with the properties of the specification stated and
    proved against it.

    Conventions of the embedding.
    - A JSON document on disk is a finite map from string keys to records;
      a file that is missing or does not parse is [None] and loads as the
      empty document, as [_load_json] does.
    - [datetime.now()] is an argument [now] of every operation that reads the
      clock.
    - A Python exception leaving a function is the [None] result of an
      [option]-valued function; the documents are then as they were.
    - Text is taken over the ASCII alphabet; [<] on [str] is
      [String.ltb], the code-point-wise lexicographic order.
    - [str] and [int] are taken without the interpreter's limit on the
      digits of a decimal conversion (4300 by default), beyond which both
      raise; a statement that depends on it says so.
    - Writes to disk succeed.  One call runs without interleaving. *)

From Stdlib Require Import ZArith Ascii String List.
From stdpp Require Import base option list strings gmap fin_maps sorting.

Local Open Scope string_scope.
Local Open Scope Z_scope.

(** ** Python built-ins used by the code *)

Module Py.

(** Characters and decimal text. *)

Definition is_digit (c : ascii) : bool :=
  let n := nat_of_ascii c in (48 <=? n)%nat && (n <=? 57)%nat.

Definition digit_val (c : ascii) : Z := Z.of_nat (nat_of_ascii c) - 48.

Definition digit_char (d : Z) : ascii := ascii_of_nat (Z.to_nat (48 + d)).

Fixpoint all_digits (s : string) : bool :=
  match s with
  | EmptyString => true
  | String c s' => is_digit c && all_digits s'
  end.

(** [s.isdigit()]: non-empty and every character a digit. *)
Definition isdigit (s : string) : bool :=
  match s with
  | EmptyString => false
  | String _ _ => all_digits s
  end.

(** The whitespace that [int()] skips around an ASCII literal: tab, newline,
    vertical tab, form feed, carriage return and space.  The separators
    0x1c..0x1f are not among them: [int] raises on them. *)
Definition is_space (c : ascii) : bool :=
  let n := nat_of_ascii c in
  ((9 <=? n)%nat && (n <=? 13)%nat) || (n =? 32)%nat.

Fixpoint lstrip (s : string) : string :=
  match s with
  | EmptyString => EmptyString
  | String c s' => if is_space c then lstrip s' else s
  end.

Fixpoint rstrip (s : string) : string :=
  match s with
  | EmptyString => EmptyString
  | String c s' =>
      match rstrip s' with
      | EmptyString => if is_space c then EmptyString else String c EmptyString
      | r => String c r
      end
  end.

Definition starts_with_digit (s : string) : bool :=
  match s with
  | String c _ => is_digit c
  | EmptyString => false
  end.

(** The digits of an integer literal: decimal digits, with single
    underscores allowed between two digits.  [prev] tells whether the
    previous character was a digit. *)
Fixpoint parse_digits (prev : bool) (acc : Z) (s : string) : option Z :=
  match s with
  | EmptyString => if prev then Some acc else None
  | String c s' =>
      if is_digit c then parse_digits true (10 * acc + digit_val c) s'
      else if Ascii.eqb c "_" && prev && starts_with_digit s'
           then parse_digits false acc s'
           else None
  end.

(** The value of a string of digits, most significant first. *)
Fixpoint digits_value (acc : Z) (s : string) : Z :=
  match s with
  | EmptyString => acc
  | String c s' => digits_value (10 * acc + digit_val c) s'
  end.



(** [int(s)] for a text of at most [int_max_str_digits] digits: surrounding
    whitespace stripped, an optional sign, then the digits.  [None] is
    [ValueError]. *)
Definition int (s : string) : option Z :=
  match rstrip (lstrip s) with
  | String "-" r => Z.opp <$> parse_digits false 0 r
  | String "+" r => parse_digits false 0 r
  | r => parse_digits false 0 r
  end.

(** [str(n)] for an integer. *)
Fixpoint digits_of (fuel : nat) (n : Z) (acc : string) : string :=
  match fuel with
  | O => acc
  | S fuel' =>
      let acc' := String (digit_char (n mod 10)) acc in
      if n <? 10 then acc' else digits_of fuel' (n / 10) acc'
  end.

Definition str_nonneg (n : Z) : string := digits_of (S (Z.to_nat n)) n "".

Definition str (n : Z) : string :=
  if n <? 0 then String "-" (str_nonneg (- n)) else str_nonneg n.

(** ["%0wd" % n] for [0 <= n < 10^w]: exactly [w] digits. *)
Fixpoint zero_padded (w : nat) (n : Z) : string :=
  match w with
  | O => ""
  | S w' => zero_padded w' (n / 10) ++ String (digit_char (n mod 10)) ""
  end.

(** [max(l, default=0)]. *)
Definition max_default0 (l : list Z) : Z :=
  match l with
  | [] => 0
  | x :: l' => foldl Z.max x l'
  end.

(** [l.sort(key=key)] with string keys: a stable sort, here by insertion. *)
Section sort.
Context {A : Type} (key : A → string).

Fixpoint insert_by (x : A) (l : list A) : list A :=
  match l with
  | [] => [x]
  | y :: l' =>
      if String.ltb (key y) (key x) then y :: insert_by x l' else x :: y :: l'
  end.

Definition sort_by (l : list A) : list A := foldr insert_by [] l.
End sort.

(** [l[start:]]. *)
Definition slice_from {A} (start : Z) (l : list A) : list A :=
  let len := Z.of_nat (length l) in
  let start' := if start <? 0 then Z.max 0 (start + len) else start in
  drop (Z.to_nat start') l.

(** [l.remove(x)] when [x in l]: drops the first occurrence. *)
Fixpoint remove_first `{EqDecision A} (x : A) (l : list A) : list A :=
  match l with
  | [] => []
  | y :: l' => if decide (x = y) then l' else y :: remove_first x l'
  end.

(** [l.sort(key=key, reverse=True)]: descending, and still stable. *)
Section sort_desc.
Context {A : Type} (key : A → string).

Fixpoint insert_desc (x : A) (l : list A) : list A :=
  match l with
  | [] => [x]
  | y :: l' =>
      if String.ltb (key x) (key y) then y :: insert_desc x l' else x :: y :: l'
  end.

Definition sort_by_desc (l : list A) : list A := foldr insert_desc [] l.
End sort_desc.

(** [l[start:stop]]: a negative bound counts from the end, and both are
    clamped to the list. *)
Definition slice_bound (len v : Z) : Z :=
  if v <? 0 then Z.max 0 (v + len) else Z.min v len.

Definition slice {A} (start stop : Z) (l : list A) : list A :=
  let len := Z.of_nat (length l) in
  let start := slice_bound len start in
  let stop := slice_bound len stop in
  take (Z.to_nat (stop - start)) (drop (Z.to_nat start) l).

End Py.

(** ** [datetime]: the part of the standard library the code calls *)

Module Datetime.

Record datetime := mk_datetime {
  year : Z; month : Z; day : Z;
  hour : Z; minute : Z; second : Z; microsecond : Z
}.

Definition is_leap (y : Z) : bool :=
  (y mod 4 =? 0) && (negb (y mod 100 =? 0) || (y mod 400 =? 0)).

Definition days_before_year (y : Z) : Z :=
  let y := y - 1 in y * 365 + y / 4 - y / 100 + y / 400.

Definition DAYS_IN_MONTH : list Z :=
  [-1; 31; 28; 31; 30; 31; 30; 31; 31; 30; 31; 30; 31].

Definition DAYS_BEFORE_MONTH : list Z :=
  [-1; 0; 31; 59; 90; 120; 151; 181; 212; 243; 273; 304; 334].

Definition table (t : list Z) (i : Z) : Z := default 0 (t !! Z.to_nat i).

Definition days_before_month (y m : Z) : Z :=
  table DAYS_BEFORE_MONTH m + (if (2 <? m) && is_leap y then 1 else 0).

Definition ymd2ord (y m d : Z) : Z :=
  days_before_year y + days_before_month y m + d.

Definition DI400Y : Z := 146097.
Definition DI100Y : Z := 36524.
Definition DI4Y : Z := 1461.
Definition MAXORDINAL : Z := 3652059.

Definition ord2ymd (n : Z) : Z * Z * Z :=
  let n := n - 1 in
  let n400 := n / DI400Y in let n := n mod DI400Y in
  let y := n400 * 400 + 1 in
  let n100 := n / DI100Y in let n := n mod DI100Y in
  let n4 := n / DI4Y in let n := n mod DI4Y in
  let n1 := n / 365 in let n := n mod 365 in
  let y := y + n100 * 100 + n4 * 4 + n1 in
  if (n1 =? 4) || (n100 =? 4) then (y - 1, 12, 31)
  else
    let leapyear := (n1 =? 3) && (negb (n4 =? 24) || (n100 =? 3)) in
    let m := Z.shiftr (n + 50) 5 in
    let preceding :=
      table DAYS_BEFORE_MONTH m + (if (2 <? m) && leapyear then 1 else 0) in
    let '(m, preceding) :=
      if n <? preceding
      then (m - 1,
            preceding - (table DAYS_IN_MONTH (m - 1)
                         + (if (m - 1 =? 2) && leapyear then 1 else 0)))
      else (m, preceding) in
    (y, m, n - preceding + 1).

Definition toordinal (t : datetime) : Z := ymd2ord (year t) (month t) (day t).

(** [t.replace(microsecond=0)]. *)
Definition replace_microsecond_0 (t : datetime) : datetime :=
  mk_datetime (year t) (month t) (day t) (hour t) (minute t) (second t) 0.

(** [t - timedelta(days=days)]; [None] is [OverflowError], raised when the
    [timedelta] itself or the resulting date is out of range. *)
Definition sub_days (t : datetime) (days : Z) : option datetime :=
  if (days <? -999999999) || (999999999 <? days) then None
  else
    let o := toordinal t - days in
    if (0 <? o) && (o <=? MAXORDINAL)
    then let '(y, m, d) := ord2ymd o in
         Some (mk_datetime y m d (hour t) (minute t) (second t) (microsecond t))
    else None.

(** [t.isoformat()]: the fraction is printed only when it is not zero. *)
Definition isoformat (t : datetime) : string :=
  Py.zero_padded 4 (year t) ++ "-" ++ Py.zero_padded 2 (month t) ++ "-"
  ++ Py.zero_padded 2 (day t) ++ "T" ++ Py.zero_padded 2 (hour t) ++ ":"
  ++ Py.zero_padded 2 (minute t) ++ ":" ++ Py.zero_padded 2 (second t)
  ++ (if microsecond t =? 0 then ""
      else "." ++ Py.zero_padded 6 (microsecond t)).

(** [t1 < t2] on naive datetimes: field by field. *)
Definition fields (t : datetime) : list Z :=
  [year t; month t; day t; hour t; minute t; second t; microsecond t].

Fixpoint lex_ltb (l1 l2 : list Z) : bool :=
  match l1, l2 with
  | x :: l1', y :: l2' => (x <? y) || ((x =? y) && lex_ltb l1' l2')
  | _, _ => false
  end.

Definition ltb (t1 t2 : datetime) : bool := lex_ltb (fields t1) (fields t2).

End Datetime.

Import Datetime.

Local Open Scope list_scope.

(** ** Data model: the three JSON documents *)

(** A scalar of the [parameters] mapping of a preset. *)
Inductive JScalar :=
  | JNull
  | JBool (b : bool)
  | JInt (n : Z)
  | JFloat (literal : string)
  | JStr (s : string).

(** A conversation record.  The timestamps are read with
    [.get(key, "")], so an absent key is [None]. *)
Record Conversation := mk_conversation {
  c_title : string;
  c_preset_id : option Z;
  c_created_at : option string;
  c_updated_at : option string
}.

Record Message := mk_message {
  m_id : Z;
  m_sender : string;
  m_content : string;
  m_created_at : option string
}.

Record Preset := mk_preset {
  p_name : string;
  p_description : string;
  p_system_prompt : string;
  p_is_active : bool;
  p_parameters : gmap string JScalar;
  p_created_at : option string;
  p_updated_at : option string
}.

(** The data directory: [None] is a file that is missing or malformed. *)
Record Disk := mk_disk {
  conversations_file : option (gmap string Conversation);
  messages_file : option (gmap string (list Message));
  presets_file : option (gmap string Preset)
}.

(** ** [JSONStorage] *)

Module JSONStorage.

(** [_load_json]: a missing or malformed file reads as [{}]. *)
Definition _load_json {V} (file : option (gmap string V)) : gmap string V :=
  default ∅ file.

(** [_save_json] on each of the three files. *)
Definition save_conversations (data : gmap string Conversation) (d : Disk) : Disk :=
  mk_disk (Some data) (messages_file d) (presets_file d).

Definition save_messages (data : gmap string (list Message)) (d : Disk) : Disk :=
  mk_disk (conversations_file d) (Some data) (presets_file d).

Definition save_presets (data : gmap string Preset) (d : Disk) : Disk :=
  mk_disk (conversations_file d) (messages_file d) (Some data).

(** [_init_storage_files]: a file that does not exist is created as [{}].
    Existence, not well-formedness, is what is tested; the model has one
    [None] for both, and [_load_json] reads [{}] either way. *)
Definition _init_storage_files (d : Disk) : Disk :=
  mk_disk (Some (_load_json (conversations_file d)))
          (Some (_load_json (messages_file d)))
          (Some (_load_json (presets_file d))).

Definition get_conversation (conversation_id : string) (d : Disk)
  : option (string * Conversation) :=
  let conversations := _load_json (conversations_file d) in
  match conversations !! conversation_id with
  | Some conv => Some (conversation_id, conv)
  | None => None
  end.

(** [new_id] stands for [str(uuid.uuid4())]. *)
Definition create_conversation (now : datetime) (new_id : string)
    (title : string) (preset_id : option Z) (d : Disk) : string * Disk :=
  let conversations := _load_json (conversations_file d) in
  let now := isoformat now in
  let conversations :=
    <[new_id := mk_conversation title preset_id (Some now) (Some now)]>
      conversations in
  (new_id, save_conversations conversations d).

Definition delete_conversation (conversation_id : string) (d : Disk)
  : bool * Disk :=
  let conversations := _load_json (conversations_file d) in
  let messages := _load_json (messages_file d) in
  match conversations !! conversation_id with
  | None => (false, d)
  | Some _ =>
      let conversations := delete conversation_id conversations in
      let d := save_conversations conversations d in
      match messages !! conversation_id with
      | Some _ => (true, save_messages (delete conversation_id messages) d)
      | None => (true, d)
      end
  end.

Definition message_key (m : Message) : string := default "" (m_created_at m).

(** [limit] is [None] when the argument is omitted; [if limit:] is false
    for [None] and for [0]. *)
Definition get_messages (conversation_id : string) (limit : option Z)
    (d : Disk) : list Message :=
  let messages := _load_json (messages_file d) in
  match messages !! conversation_id with
  | None => []
  | Some msg_list =>
      let msg_list := Py.sort_by message_key msg_list in
      match limit with
      | Some l => if l =? 0 then msg_list else Py.slice_from (- l) msg_list
      | None => msg_list
      end
  end.

Definition add_message (now : datetime)
    (conversation_id sender content : string) (d : Disk) : bool * Disk :=
  let messages := _load_json (messages_file d) in
  let conversations := _load_json (conversations_file d) in
  match conversations !! conversation_id with
  | None => (false, d)
  | Some conv =>
      let messages :=
        match messages !! conversation_id with
        | None => <[conversation_id := []]> messages
        | Some _ => messages
        end in
      let msg_list := default [] (messages !! conversation_id) in
      let new_message :=
        mk_message (Z.of_nat (length msg_list) + 1) sender content
                   (Some (isoformat now)) in
      let messages := <[conversation_id := msg_list ++ [new_message]]> messages in
      let conv :=
        mk_conversation (c_title conv) (c_preset_id conv) (c_created_at conv)
                        (m_created_at new_message) in
      let conversations := <[conversation_id := conv]> conversations in
      (true, save_conversations conversations (save_messages messages d))
  end.

(** [get_presets]: [int(preset_id)] raises [ValueError] on a key that is
    not an integer literal, which is the [None] result. *)
Definition preset_key (p : Z * Preset) : string := default "" (p_created_at p.2).

Definition get_presets (d : Disk) : option (list (Z * Preset)) :=
  let presets := _load_json (presets_file d) in
  preset_list ← mapM (λ kv : string * Preset,
                        id ← Py.int kv.1; Some (id, kv.2))
                     (map_to_list presets);
  Some (Py.sort_by preset_key preset_list).

Definition get_preset (preset_id : Z) (d : Disk) : option (Z * Preset) :=
  let presets := _load_json (presets_file d) in
  let preset_id_str := Py.str preset_id in
  match presets !! preset_id_str with
  | Some p => Some (preset_id, p)
  | None => None
  end.

(** The integer a digit-only key denotes: [int(pid)] under [pid.isdigit()]. *)
Definition existing_ids (presets : gmap string Preset) : list Z :=
  omap (λ kv : string * Preset,
          if Py.isdigit kv.1 then Py.int kv.1 else None)
       (map_to_list presets).

(** [is_active] and [parameters] are [None] when omitted by the caller;
    the defaults are [True] and [None], and [parameters or {}] turns both
    [None] and the empty mapping into [{}]. *)
Definition create_preset (now : datetime)
    (name description system_prompt : string)
    (is_active : option bool) (parameters : option (gmap string JScalar))
    (d : Disk) : Z * Disk :=
  let presets := _load_json (presets_file d) in
  let new_id := Py.max_default0 (existing_ids presets) + 1 in
  let now := isoformat now in
  let presets :=
    <[Py.str new_id :=
        mk_preset name description system_prompt (default true is_active)
                  (default ∅ parameters) (Some now) (Some now)]> presets in
  (new_id, save_presets presets d).

Definition delete_preset (preset_id : Z) (d : Disk) : bool * Disk :=
  let presets := _load_json (presets_file d) in
  let preset_id_str := Py.str preset_id in
  match presets !! preset_id_str with
  | None => (false, d)
  | Some _ => (true, save_presets (delete preset_id_str presets) d)
  end.

(** [get_statistics].  The loop keeps the count of recent conversations
    and the oldest date seen so far; [not oldest_date] holds for [None] and
    for the empty string. *)
Record Statistics := mk_statistics {
  total_conversations : Z;
  total_messages : Z;
  recent_conversations_7_days : Z;
  oldest_conversation_date : option string;
  max_age_days : Z
}.

Definition created_text (conv : Conversation) : string :=
  default "" (c_created_at conv).

Definition stats_step (seven_days_ago : string)
    (acc : Z * option string) (conv : Conversation) : Z * option string :=
  let created_at := created_text conv in
  let oldest_date :=
    match acc.2 with
    | None => Some created_at
    | Some o =>
        if String.eqb o "" || String.ltb created_at o
        then Some created_at else Some o
    end in
  let recent_conversations :=
    if negb (String.ltb created_at seven_days_ago) then acc.1 + 1 else acc.1 in
  (recent_conversations, oldest_date).

Definition get_statistics (now : datetime) (d : Disk) : option Statistics :=
  let conversations := _load_json (conversations_file d) in
  let messages := _load_json (messages_file d) in
  let total_conversations := Z.of_nat (size conversations) in
  let total_messages :=
    foldl (λ total (kv : string * list Message),
             total + Z.of_nat (length kv.2)) 0 (map_to_list messages) in
  seven ← sub_days (replace_microsecond_0 now) 7;
  let seven_days_ago := isoformat seven in
  let '(recent_conversations, oldest_date) :=
    foldl (stats_step seven_days_ago) (0, None)
          ((map_to_list conversations).*2) in
  Some (mk_statistics total_conversations total_messages
                      recent_conversations oldest_date 30).

(** [cleanup_old_conversations]. *)
Definition updated_text (conv : Conversation) : string :=
  default "" (c_updated_at conv).

Definition cutoff_date (now : datetime) (days : Z) : option string :=
  isoformat <$> sub_days (replace_microsecond_0 now) days.

Definition collect_old (cutoff : string)
    (conversations : gmap string Conversation) : list string :=
  foldl (λ to_delete (kv : string * Conversation),
           if String.ltb (updated_text kv.2) cutoff
           then to_delete ++ [kv.1] else to_delete)
        [] (map_to_list conversations).

Definition delete_step
    (acc : gmap string Conversation * gmap string (list Message))
    (conv_id : string)
  : gmap string Conversation * gmap string (list Message) :=
  (delete conv_id acc.1,
   match acc.2 !! conv_id with
   | Some _ => delete conv_id acc.2
   | None => acc.2
   end).

Definition cleanup_old_conversations (now : datetime) (days : Z) (d : Disk)
  : option (Z * Disk) :=
  let conversations := _load_json (conversations_file d) in
  let messages := _load_json (messages_file d) in
  cutoff ← cutoff_date now days;
  let to_delete := collect_old cutoff conversations in
  let '(conversations, messages) :=
    foldl delete_step (conversations, messages) to_delete in
  Some (Z.of_nat (length to_delete),
        save_messages messages (save_conversations conversations d)).

(** [get_conversations]: the records with their ids, latest update first,
    then the page [offset : offset + limit]. *)
Definition conversation_key (c : string * Conversation) : string :=
  updated_text c.2.

Definition get_conversations (limit offset : Z) (d : Disk)
  : list (string * Conversation) :=
  let conversations := _load_json (conversations_file d) in
  let conv_list := map_to_list conversations in
  let conv_list := Py.sort_by_desc conversation_key conv_list in
  Py.slice offset (offset + limit) conv_list.

(** The [data] of [update_conversation], for the keys of the record: a
    key that is absent from [data] is [None]. *)
Record ConversationUpdate := mk_conversation_update {
  u_title : option string;
  u_preset_id : option (option Z);
  u_created_at : option string;
  u_updated_at : option string
}.

Definition update_conversation (now : datetime) (conversation_id : string)
    (data : ConversationUpdate) (d : Disk) : bool * Disk :=
  let conversations := _load_json (conversations_file d) in
  match conversations !! conversation_id with
  | None => (false, d)
  | Some conv =>
      let conv :=
        mk_conversation
          (default (c_title conv) (u_title data))
          (default (c_preset_id conv) (u_preset_id data))
          (match u_created_at data with
           | Some t => Some t
           | None => c_created_at conv
           end)
          (Some (isoformat now)) in
      (true, save_conversations (<[conversation_id := conv]> conversations) d)
  end.

(** [get_preset_usage]. *)
Record PresetUsage := mk_preset_usage {
  usage_preset_id : Z;
  usage_preset_name : string;
  usage_conversation_count : Z;
  usage_is_active : bool
}.

Definition get_preset_usage (preset_id : Z) (d : Disk) : PresetUsage :=
  let conversations := _load_json (conversations_file d) in
  let count :=
    foldl (λ count (conv : Conversation),
             if decide (c_preset_id conv = Some preset_id)
             then count + 1 else count)
          0 ((map_to_list conversations).*2) in
  let preset := get_preset preset_id d in
  mk_preset_usage preset_id
    (match preset with Some p => p_name p.2 | None => "" end)
    count
    (match preset with Some p => p_is_active p.2 | None => false end).

End JSONStorage.

(** ** [ConnectionManager] *)

Module ConnectionManager.

(** A [WebSocket] object, compared by identity. *)
Definition WebSocket := nat.

(** [accept_ok] is whether [websocket.accept()] returns; when it raises,
    the exception leaves [connect] before the registry is touched. *)
Definition connect (accept_ok : bool) (websocket : WebSocket)
    (conversation_id : string)
    (active_connections : gmap string (list WebSocket))
  : option (gmap string (list WebSocket)) :=
  if accept_ok then
    let active_connections :=
      match active_connections !! conversation_id with
      | None => <[conversation_id := []]> active_connections
      | Some _ => active_connections
      end in
    let group := default [] (active_connections !! conversation_id) in
    Some (<[conversation_id := group ++ [websocket]]> active_connections)
  else None.

Definition disconnect (websocket : WebSocket) (conversation_id : string)
    (active_connections : gmap string (list WebSocket))
  : gmap string (list WebSocket) :=
  match active_connections !! conversation_id with
  | Some group =>
      let group :=
        if decide (websocket ∈ group)
        then Py.remove_first websocket group else group in
      match group with
      | [] => delete conversation_id active_connections
      | _ => <[conversation_id := group]> active_connections
      end
  | None => active_connections
  end.

(** [send_fails c] is whether [c.send_json] raises during this pass.  The
    result carries the send attempts in order, each with the payload and
    whether it was delivered. *)
Definition broadcast_to_conversation {Payload : Type}
    (send_fails : WebSocket → bool)
    (conversation_id : string) (message : Payload)
    (active_connections : gmap string (list WebSocket))
  : gmap string (list WebSocket) * list (WebSocket * Payload * bool) :=
  match active_connections !! conversation_id with
  | Some group =>
      let '(sent, disconnected_connections) :=
        foldl (λ (acc : list (WebSocket * Payload * bool) * list WebSocket)
                 connection,
                 if send_fails connection
                 then (acc.1 ++ [(connection, message, false)],
                       acc.2 ++ [connection])
                 else (acc.1 ++ [(connection, message, true)], acc.2))
              ([], []) group in
      (foldl (λ ac connection, disconnect connection conversation_id ac)
             active_connections disconnected_connections,
       sent)
  | None => (active_connections, [])
  end.

(** [conversation_id] is [None] when omitted; [if conversation_id:] is
    false for [None] and for the empty string. *)
Definition get_active_connections_count (conversation_id : option string)
    (active_connections : gmap string (list WebSocket)) : Z :=
  let total :=
    foldl (λ total (kv : string * list WebSocket),
             total + Z.of_nat (length kv.2))
          0 (map_to_list active_connections) in
  match conversation_id with
  | Some cid =>
      if String.eqb cid "" then total
      else Z.of_nat (length (default [] (active_connections !! cid)))
  | None => total
  end.

(** [get_active_conversations]: the ids that have a group. *)
Definition get_active_conversations
    (active_connections : gmap string (list WebSocket)) : list string :=
  (map_to_list active_connections).*1.

End ConnectionManager.

(** ** The preset creation route of [api/preset.py] *)

Module PresetAPI.

Record PresetCreate := mk_preset_create {
  name : string;
  description : option string;
  system_prompt : string;
  parameters : option (gmap string JScalar);
  is_active : bool
}.

Record PresetResponse := mk_preset_response {
  r_id : Z;
  r_name : string;
  r_description : option string;
  r_system_prompt : string;
  r_parameters : option (gmap string JScalar);
  r_is_active : bool;
  r_created_at : string;
  r_updated_at : string
}.

(** The route's typed failure, by status code. *)
Inductive HTTPException := mk_http_exception (status_code : Z).

Definition response_of (p : Z * Preset) : PresetResponse :=
  mk_preset_response p.1 (p_name p.2) (Some (p_description p.2))
    (p_system_prompt p.2) (Some (p_parameters p.2)) (p_is_active p.2)
    (default "" (p_created_at p.2)) (default "" (p_updated_at p.2)).

(** [x or ""] and [x or {}]. *)
Definition or_empty_string (x : option string) : string := default "" x.

Definition or_empty_dict (x : option (gmap string JScalar))
  : gmap string JScalar := default ∅ x.

(** [create_preset].  An exception other than [HTTPException] inside the
    [try] becomes status 500; the duplicate name raises status 400, which
    is re-raised as it is. *)
Definition create_preset (now : datetime) (preset_data : PresetCreate)
    (d : Disk) : (HTTPException + PresetResponse) * Disk :=
  match JSONStorage.get_presets d with
  | None => (inl (mk_http_exception 500), d)
  | Some presets =>
      if existsb (λ preset : Z * Preset,
                    String.eqb (p_name preset.2) (name preset_data)) presets
      then (inl (mk_http_exception 400), d)
      else
        let '(new_id, d) :=
          JSONStorage.create_preset now (name preset_data)
            (or_empty_string (description preset_data))
            (system_prompt preset_data)
            (Some (is_active preset_data))
            (Some (or_empty_dict (parameters preset_data))) d in
        match JSONStorage.get_preset new_id d with
        | Some preset => (inr (response_of preset), d)
        | None => (inl (mk_http_exception 500), d)
        end
  end.

(** [get_preset]: 404 when the id is not stored. *)
Definition get_preset (preset_id : Z) (d : Disk)
  : HTTPException + PresetResponse :=
  match JSONStorage.get_preset preset_id d with
  | None => inl (mk_http_exception 404)
  | Some preset => inr (response_of preset)
  end.

(** [delete_preset]: 404 when the id is not stored; the success answer is
    the fixed message. *)
Definition delete_preset (preset_id : Z) (d : Disk)
  : (HTTPException + unit) * Disk :=
  match JSONStorage.get_preset preset_id d with
  | None => (inl (mk_http_exception 404), d)
  | Some _ =>
      let '(success, d) := JSONStorage.delete_preset preset_id d in
      if success then (inr tt, d) else (inl (mk_http_exception 500), d)
  end.

(** [get_preset_usage]: 404 when the id is not stored. *)
Definition get_preset_usage (preset_id : Z) (d : Disk)
  : HTTPException + JSONStorage.PresetUsage :=
  match JSONStorage.get_preset preset_id d with
  | None => inl (mk_http_exception 404)
  | Some _ => inr (JSONStorage.get_preset_usage preset_id d)
  end.

End PresetAPI.

(** ** [services/history_cleanup.py] *)

Module HistoryCleanup.

(** The settings of [config.py] that the services read. *)
Record Settings := mk_settings {
  lm_studio_base_url : string;
  max_conversation_age_days : Z;
  cleanup_interval_hours : Z
}.

(** [cleanup_old_conversations]: [days] is [None] when omitted; an
    exception of the storage call is logged and answered with 0. *)
Definition cleanup_old_conversations (settings : Settings) (now : datetime)
    (days : option Z) (d : Disk) : Z * Disk :=
  let days :=
    match days with
    | None => max_conversation_age_days settings
    | Some days => days
    end in
  match JSONStorage.cleanup_old_conversations now days d with
  | Some (deleted_count, d) => (deleted_count, d)
  | None => (0, d)
  end.

Definition delete_conversation (conversation_id : string) (d : Disk)
  : bool * Disk :=
  JSONStorage.delete_conversation conversation_id d.

Definition update_conversation_title (now : datetime)
    (conversation_id title : string) (d : Disk) : bool * Disk :=
  JSONStorage.update_conversation now conversation_id
    (JSONStorage.mk_conversation_update (Some title) None None None) d.

End HistoryCleanup.

(** ** The conversation routes of [api/chat.py] and [api/conversation.py] *)

Module ConversationAPI.

Import PresetAPI.

Record ConversationItem := mk_conversation_item {
  i_id : string;
  i_title : string;
  i_created_at : string;
  i_updated_at : string
}.

Record ConversationsPage := mk_conversations_page {
  pg_conversations : list ConversationItem;
  pg_total : Z;
  pg_limit : Z;
  pg_offset : Z
}.

(** [conv["created_at"]] and [conv["updated_at"]] raise [KeyError] on a
    record without the key. *)
Definition item_of (conv : string * Conversation) : option ConversationItem :=
  created_at ← c_created_at conv.2;
  updated_at ← c_updated_at conv.2;
  Some (mk_conversation_item conv.1 (c_title conv.2) created_at updated_at).

(** [get_conversations]: the total is the length of the listing that
    [storage.get_conversations()] gives with its default arguments. *)
Definition get_conversations (limit offset : Z) (d : Disk)
  : HTTPException + ConversationsPage :=
  let conversations := JSONStorage.get_conversations limit offset d in
  let all_conversations := JSONStorage.get_conversations 50 0 d in
  let total_count := Z.of_nat (length all_conversations) in
  match mapM item_of conversations with
  | Some items => inr (mk_conversations_page items total_count limit offset)
  | None => inl (mk_http_exception 500)
  end.

Definition delete_conversation (conversation_id : string) (d : Disk)
  : (HTTPException + unit) * Disk :=
  let '(success, d) := HistoryCleanup.delete_conversation conversation_id d in
  if success then (inr tt, d) else (inl (mk_http_exception 404), d).

Definition update_conversation (now : datetime)
    (conversation_id title : string) (d : Disk)
  : (HTTPException + unit) * Disk :=
  let '(success, d) :=
    HistoryCleanup.update_conversation_title now conversation_id title d in
  if success then (inr tt, d) else (inl (mk_http_exception 404), d).

Record DuplicateResponse := mk_duplicate_response {
  dup_id : string;
  dup_title : string;
  dup_message_count : Z;
  dup_created_at : string
}.

(** The loop of [duplicate_conversation]: one [add_message] per message;
    [clock i] is the clock reading of the call number [i]. *)
Fixpoint copy_messages (clock : nat → datetime) (i : nat) (new_id : string)
    (messages : list Message) (d : Disk) : Disk :=
  match messages with
  | [] => d
  | message :: messages =>
      copy_messages clock (S i) new_id messages
        (JSONStorage.add_message (clock i) new_id (m_sender message)
                                 (m_content message) d).2
  end.

(** The mark appended to the title of a copy; the fixed texts of the source
    are kept as their UTF-8 bytes. *)
Definition copy_suffix : string := " (副本)".

(** [duplicate_conversation]: [new_id] stands for the fresh uuid;
    [new_title] is [None] when omitted, and [new_title or ...] takes the
    default for [None] and for the empty string. *)
Definition duplicate_conversation (clock : nat → datetime) (new_id : string)
    (conversation_id : string) (new_title : option string) (d : Disk)
  : (HTTPException + DuplicateResponse) * Disk :=
  match JSONStorage.get_conversation conversation_id d with
  | None => (inl (mk_http_exception 404), d)
  | Some original_conversation =>
      let title :=
        match new_title with
        | Some t =>
            if String.eqb t ""
            then String.append (c_title original_conversation.2) copy_suffix
            else t
        | None => String.append (c_title original_conversation.2) copy_suffix
        end in
      let '(new_id, d1) :=
        JSONStorage.create_conversation (clock 0%nat) new_id title
          (c_preset_id original_conversation.2) d in
      let messages := JSONStorage.get_messages conversation_id None d1 in
      let d2 := copy_messages clock 1 new_id messages d1 in
      match JSONStorage.get_conversation new_id d2 with
      | Some new_conversation =>
          match c_created_at new_conversation.2 with
          | Some created_at =>
              (inr (mk_duplicate_response new_conversation.1
                      (c_title new_conversation.2)
                      (Z.of_nat (length messages)) created_at), d2)
          | None => (inl (mk_http_exception 500), d2)
          end
      | None => (inl (mk_http_exception 500), d2)
      end
  end.

End ConversationAPI.

(** ** [services/lm_studio_client.py] *)

Module LMStudioClient.

Record ChatMessage := mk_chat_message {
  role : string;
  content : string
}.

Definition default_title : string := "新建对话".

Definition default_system_prompt : string :=
  "你是一个有用的AI助手。请友好、专业地回答用户问题。".

(** [if x:] on an optional string and on an optional integer. *)
Definition truthy_string (x : option string) : bool :=
  match x with
  | Some s => negb (String.eqb s "")
  | None => false
  end.

Definition truthy_int (x : option Z) : bool :=
  match x with
  | Some n => negb (n =? 0)
  | None => false
  end.

(** [_get_or_create_conversation]: the conversation returned is the local
    copy, whose [preset_id] alone is changed after an update.  [None] is
    the [None] that [get_conversation] returns. *)
Definition _get_or_create_conversation (now : datetime) (new_id : string)
    (conversation_id : option string) (preset_id : option Z) (d : Disk)
  : option (string * Conversation) * Disk :=
  let create :=
    let '(new_id, d) :=
      JSONStorage.create_conversation now new_id default_title preset_id d in
    (JSONStorage.get_conversation new_id d, d) in
  if truthy_string conversation_id then
    match JSONStorage.get_conversation (default "" conversation_id) d with
    | Some conversation =>
        if truthy_int preset_id
           && negb (bool_decide (c_preset_id conversation.2 = preset_id))
        then
          let d :=
            (JSONStorage.update_conversation now (default "" conversation_id)
               (JSONStorage.mk_conversation_update None (Some preset_id)
                                                   None None) d).2 in
          (Some (conversation.1,
                 mk_conversation (c_title conversation.2) preset_id
                   (c_created_at conversation.2) (c_updated_at conversation.2)),
           d)
        else (Some conversation, d)
    | None => create
    end
  else create.

(** The message array sent upstream: the system prompt, the history, the
    new message. *)
Definition build_messages (preset : option (Z * Preset))
    (history_messages : list Message) (message : string) : list ChatMessage :=
  [mk_chat_message "system"
     (match preset with
      | Some p => p_system_prompt p.2
      | None => default_system_prompt
      end)]
  ++ ((λ msg, mk_chat_message
                (if String.eqb (m_sender msg) "user" then "user" else "assistant")
                (m_content msg)) <$> history_messages)
  ++ [mk_chat_message "user" message].

(** [get_response].  [call_api] stands for [_call_lm_studio_api], [None]
    when it raises; [now], [now_user] and [now_ai] are the clock readings of
    the conversation step and of the two appends.  The result is the reply,
    or [None] when an exception leaves the function, with the disk as it
    then is. *)
Definition get_response (call_api : list ChatMessage → option string)
    (now now_user now_ai : datetime) (new_id : string)
    (message : string) (conversation_id : option string)
    (preset_id : option Z) (d : Disk) : option string * Disk :=
  let '(conversation, d) :=
    _get_or_create_conversation now new_id conversation_id preset_id d in
  match conversation with
  | None => (None, d)
  | Some conversation =>
      let preset :=
        if truthy_int preset_id
        then JSONStorage.get_preset (default 0 preset_id) d else None in
      let history_messages :=
        JSONStorage.get_messages conversation.1 (Some 10) d in
      let messages := build_messages preset history_messages message in
      let d := (JSONStorage.add_message now_user conversation.1 "user"
                                        message d).2 in
      match call_api messages with
      | None => (None, d)
      | Some response_text =>
          let d := (JSONStorage.add_message now_ai conversation.1 "ai"
                                            response_text d).2 in
          (Some response_text, d)
      end
  end.

End LMStudioClient.

(** ** [init_storage] of [main.py] *)

Module Main.

Definition default_presets : list (string * string * string) :=
  [("通用助手",
    "一个通用的AI助手，可以回答各种问题和提供建议",
    "你是一个有用的AI助手。请用友好、专业的方式回答用户的问题，并提供准确、有用的信息。如果不确定答案，请诚实地说明。");
   ("编程助手",
    "专门用于编程相关问题的AI助手",
    "你是一个专业的编程助手。请提供清晰的代码示例和解释，遵循最佳实践，并考虑代码的安全性和可维护性。");
   ("创意写作助手",
    "帮助用户进行创意写作的AI助手",
    "你是一个创意写作助手。请帮助用户创作故事、诗歌、剧本等内容，发挥想象力，并提供富有创意的建议。")].

(** The loop over the default presets; [clock i] is the clock reading of
    the creation number [i]. *)
Fixpoint create_defaults (clock : nat → datetime) (i : nat)
    (presets : list (string * string * string)) (d : Disk) : Disk :=
  match presets with
  | [] => d
  | preset_data :: presets =>
      create_defaults clock (S i) presets
        (JSONStorage.create_preset (clock i) preset_data.1.1 preset_data.1.2
           preset_data.2 (Some true) None d).2
  end.

(** [init_storage]: the exception of [get_presets] is logged and raised
    again, which is [None]. *)
Definition init_storage (clock : nat → datetime) (d : Disk) : option Disk :=
  presets ← JSONStorage.get_presets d;
  if (length presets =? 0)%nat
  then Some (create_defaults clock 0 default_presets d)
  else Some d.

End Main.

(** ** The port scan of [start.py] *)

Module Start.

(** The [while] loop: [remaining] ports are still to be tried from [port]
    on; [None] is the [else] branch, which exits. *)
Fixpoint scan_ports (check_port_available : Z → bool) (port : Z)
    (remaining : nat) : option Z :=
  match remaining with
  | O => None
  | S remaining =>
      if check_port_available port then Some port
      else scan_ports check_port_available (port + 1) remaining
  end.

Definition start_port : Z := 8100.

Definition choose_port (check_port_available : Z → bool) : option Z :=
  scan_ports check_port_available start_port 20.

End Start.

(** ** Vocabulary of the statements *)

Import JSONStorage.

(** The stored documents, as the operations read them. *)
Definition conversations_of (d : Disk) : gmap string Conversation :=
  _load_json (conversations_file d).

Definition messages_doc (d : Disk) : gmap string (list Message) :=
  _load_json (messages_file d).

Definition presets_of (d : Disk) : gmap string Preset :=
  _load_json (presets_file d).

(** The messages stored for one conversation, in stored order. *)
Definition messages_of (cid : string) (d : Disk) : list Message :=
  default [] (messages_doc d !! cid).

(** The ids of a message list are [1, 2, ..., length]: what [add_message]
    builds from the empty list. *)
Definition sequential_ids (l : list Message) : Prop :=
  m_id <$> l = seqZ 1 (Z.of_nat (length l)).

(** Every stored message list has the ids [1..length]. *)
Definition all_sequential (d : Disk) : Prop :=
  ∀ cid l, messages_doc d !! cid = Some l → sequential_ids l.

(** A run of appends to one conversation, each with its own clock reading. *)
Record Append := mk_append {
  a_now : datetime;
  a_sender : string;
  a_content : string
}.

Definition append_all (cid : string) (ops : list Append) (d : Disk) : Disk :=
  foldl (λ d op, (add_message (a_now op) cid (a_sender op) (a_content op) d).2)
        d ops.

(** A conversation is old for a cutoff text when its [updated_at] text is
    below it. *)
Definition is_old (cutoff : string) (conv : Conversation) : Prop :=
  String.ltb (updated_text conv) cutoff = true.

#[local] Instance is_old_dec cutoff conv : Decision (is_old cutoff conv).
Proof. unfold is_old. apply _. Defined.

(** The conversations [cleanup_old_conversations] is to delete. *)
Definition stale (cutoff : string) (d : Disk) (cid : string) : Prop :=
  ∃ conv, conversations_of d !! cid = Some conv ∧ is_old cutoff conv.

(** The reading of the retention rule on instants: a conversation stamped
    at the instant [t] goes when [t] is before [now - days]. *)
Definition cleanup_by_instant (now : datetime) (days : Z) (d : Disk) : Prop :=
  ∀ limit n d',
    sub_days now days = Some limit →
    cleanup_old_conversations now days d = Some (n, d') →
    ∀ cid conv t,
      conversations_of d !! cid = Some conv →
      c_updated_at conv = Some (isoformat t) →
      Datetime.ltb t limit = true →
      conversations_of d' !! cid = None.

(** Every stored message, list after list. *)
Definition all_messages (d : Disk) : list Message :=
  concat ((map_to_list (messages_doc d)).*2).

(** A conversation is recent for a cutoff text when its [created_at] text
    is not below it. *)
Definition is_recent (seven_days_ago : string) (conv : Conversation) : Prop :=
  String.ltb (created_text conv) seven_days_ago = false.

#[local] Instance is_recent_dec cutoff conv : Decision (is_recent cutoff conv).
Proof. unfold is_recent. apply _. Defined.

(** The reading of the recent count on [updated_at]: the conversations
    updated in the last seven days. *)
Definition counts_updated (now : datetime) (d : Disk) : Prop :=
  ∀ seven st,
    cutoff_date now 7 = Some seven →
    get_statistics now d = Some st →
    recent_conversations_7_days st
    = Z.of_nat (size (filter (λ kv : string * Conversation,
                                String.ltb (updated_text kv.2) seven = false)
                             (conversations_of d))).

(** *** Presets *)

(** A preset is stored under an id when [get_preset] finds it. *)
Definition preset_exists (id : Z) (d : Disk) : Prop :=
  is_Some (get_preset id d).

(** The keys of the presets document are the decimal texts of
    non-negative integers: the keys [create_preset] writes. *)
Definition integer_keys (d : Disk) : Prop :=
  ∀ k, is_Some (presets_of d !! k) → ∃ n, 0 ≤ n ∧ k = Py.str n.

(** A history of the presets document: creations and deletions. *)
Inductive PresetOp :=
  | Create (now : datetime) (name description system_prompt : string)
  | Delete (preset_id : Z).

(** The ids [create_preset] hands out along a history, in order. *)
Fixpoint assigned_ids (ops : list PresetOp) (d : Disk) : list Z :=
  match ops with
  | [] => []
  | Create now name description system_prompt :: ops' =>
      let created :=
        create_preset now name description system_prompt None None d in
      created.1 :: assigned_ids ops' created.2
  | Delete preset_id :: ops' => assigned_ids ops' (delete_preset preset_id d).2
  end.

(** Ids are unique and assigned monotonically: along every history each
    id handed out is above all those handed out before it. *)
Definition assigned_monotonically (d : Disk) : Prop :=
  ∀ ops, StronglySorted Z.lt (assigned_ids ops d).


(** One entry of the listing of [get_presets]. *)
Definition preset_entry (kv : string * Preset) : option (Z * Preset) :=
  id ← Py.int kv.1; Some (id, kv.2).

(** *** Registry *)

Import ConnectionManager.

(** The channels registered under a conversation id, in registration order. *)
Definition group_of (cid : string) (reg : gmap string (list WebSocket))
  : list WebSocket := default [] (reg !! cid).

Definition delivered (send_fails : WebSocket → bool) (c : WebSocket) : Prop :=
  send_fails c = false.

#[local] Instance delivered_dec send_fails c : Decision (delivered send_fails c).
Proof. unfold delivered. apply _. Defined.

(** The operations on the registry.  A [connect] whose handshake raises
    leaves the registry as it was. *)
Inductive Op :=
  | Join (accept_ok : bool) (websocket : WebSocket) (cid : string)
  | Leave (websocket : WebSocket) (cid : string)
  | Broadcast (send_fails : WebSocket → bool) (cid : string) (message : string).

Definition step (reg : gmap string (list WebSocket)) (op : Op)
  : gmap string (list WebSocket) :=
  match op with
  | Join accept_ok websocket cid =>
      default reg (connect accept_ok websocket cid reg)
  | Leave websocket cid => disconnect websocket cid reg
  | Broadcast send_fails cid message =>
      (broadcast_to_conversation send_fails cid message reg).1
  end.

Definition run (ops : list Op) : gmap string (list WebSocket) :=
  foldl step ∅ ops.

(** No conversation id is mapped to an empty group. *)
Definition no_empty_group (reg : gmap string (list WebSocket)) : Prop :=
  ∀ cid group, reg !! cid = Some group → group ≠ [].

(** The channels that [get_active_connections_count] counts, one entry for
    each registration: those of the group for an id that is not the empty
    string, those of every group otherwise. *)
Definition counted_channels (conversation_id : option string)
    (reg : gmap string (list WebSocket)) : list WebSocket :=
  match conversation_id with
  | Some cid =>
      if String.eqb cid "" then concat (map_to_list reg).*2
      else group_of cid reg
  | None => concat (map_to_list reg).*2
  end.

(** *** Orders of the listings *)

(** [a] may stand before [b] in a listing with the latest update first. *)
Definition latest_first (a b : string * Conversation) : Prop :=
  String.leb (conversation_key b) (conversation_key a) = true.

(** [a] may stand before [b] in a listing with the earliest message first. *)
Definition earliest_first (a b : Message) : Prop :=
  String.leb (message_key a) (message_key b) = true.

(** The same for the presets, by [created_at]. *)
Definition oldest_first (a b : Z * Preset) : Prop :=
  String.leb (preset_key a) (preset_key b) = true.

(** ** Sample data *)

Definition half_past : datetime := mk_datetime 2024 1 1 12 0 0 500000.
Definition now_0 : datetime := mk_datetime 2024 1 1 12 0 0 700000.
Definition next_day : datetime := mk_datetime 2024 1 2 12 0 0 700000.

Definition conv_1 : Conversation :=
  mk_conversation "T" (Some 1) (Some (isoformat half_past))
                  (Some (isoformat half_past)).

Definition msg_1 : Message :=
  mk_message 1 "user" "hi" (Some (isoformat half_past)).

Definition disk_1 : Disk :=
  mk_disk (Some {["c1" := conv_1]}) (Some {["c1" := [msg_1]]}) (Some ∅).

Definition day_1 : datetime := mk_datetime 2024 1 1 9 30 0 0.
Definition day_20 : datetime := mk_datetime 2024 1 20 9 30 0 0.
Definition day_21 : datetime := mk_datetime 2024 1 21 9 30 0 0.

(** Created on the first of the month, last written to on the twentieth. *)
Definition conv_2 : Conversation :=
  mk_conversation "T" None (Some (isoformat day_1)) (Some (isoformat day_20)).

Definition disk_2 : Disk :=
  mk_disk (Some {["c2" := conv_2]}) (Some ∅) (Some ∅).

Definition reg_2 : gmap string (list WebSocket) :=
  {["a" := [1%nat; 2%nat; 3%nat]]}.

Definition fails_2 (c : WebSocket) : bool := Nat.eqb c 2.

(** Two channels registered under the empty id, one under ["a"]. *)
Definition reg_3 : gmap string (list WebSocket) :=
  {["" := [1%nat; 2%nat]; "a" := [3%nat]]}.

Definition preset_1 : Preset :=
  mk_preset "General" "A general assistant" "You are helpful." true ∅
            (Some (isoformat day_1)) (Some (isoformat day_1)).

Definition disk_3 : Disk :=
  mk_disk (Some ∅) (Some ∅) (Some {["1" := preset_1]}).

(** A presets document with a key that is not an integer literal. *)
Definition disk_4 : Disk :=
  mk_disk (Some ∅) (Some ∅) (Some {["1" := preset_1; "v2" := preset_1]}).

Definition request_1 : PresetAPI.PresetCreate :=
  PresetAPI.mk_preset_create "General" None "Another prompt." None true.

Definition title_only (title : string) : ConversationUpdate :=
  mk_conversation_update (Some title) None None None.

Definition settings_1 : HistoryCleanup.Settings :=
  HistoryCleanup.mk_settings "http://localhost:1234" 30 24.

Definition request_2 : PresetAPI.PresetCreate :=
  PresetAPI.mk_preset_create "Coder" None "You write code." None true.

Definition clock_1 (i : nat) : datetime :=
  mk_datetime 2024 1 2 12 0 (Z.of_nat i) 0.

Definition api_1 (messages : list LMStudioClient.ChatMessage)
  : option string := Some "pong".

(** * Properties *)

(** ** Decimal text *)

Section decimal.
Import Py.

Lemma is_digit_not_space c : is_digit c = true → is_space c = false.
Proof. destruct c as [[] [] [] [] [] [] [] []]; vm_compute; congruence. Qed.

Lemma is_digit_not_sign c :
  is_digit c = true → c ≠ "-"%char ∧ c ≠ "+"%char.
Proof.
  destruct c as [[] [] [] [] [] [] [] []]; vm_compute; intros; split; congruence.
Qed.

Lemma is_digit_val_nonneg c : is_digit c = true → 0 ≤ digit_val c.
Proof. destruct c as [[] [] [] [] [] [] [] []]; vm_compute; congruence. Qed.

Lemma digit_char_spec d :
  0 ≤ d < 10 → is_digit (digit_char d) = true ∧ digit_val (digit_char d) = d.
Proof.
  intros Hd.
  assert (d = 0 ∨ d = 1 ∨ d = 2 ∨ d = 3 ∨ d = 4 ∨ d = 5 ∨ d = 6 ∨ d = 7
          ∨ d = 8 ∨ d = 9) as Hcases by lia.
  repeat destruct Hcases as [-> | Hcases]; try subst d; by vm_compute.
Qed.

Lemma lstrip_digits c s : is_digit c = true → lstrip (String c s) = String c s.
Proof. intros Hc. simpl. by rewrite (is_digit_not_space c Hc). Qed.

Lemma rstrip_digits s : all_digits s = true → rstrip s = s.
Proof.
  induction s as [|c s IH]; [done|]. simpl.
  intros [Hc Hs]%andb_prop. rewrite (IH Hs), (is_digit_not_space c Hc).
  by destruct s.
Qed.

Lemma parse_all_digits s : ∀ acc,
  all_digits s = true → parse_digits true acc s = Some (digits_value acc s).
Proof.
  induction s as [|c s IH]; intros acc; [done|]. simpl.
  intros [Hc Hs]%andb_prop. rewrite Hc. by apply IH.
Qed.

Lemma int_isdigit s : isdigit s = true → int s = Some (digits_value 0 s).
Proof.
  destruct s as [|c s]; [done|]. simpl. intros [Hc Hs]%andb_prop.
  unfold int. rewrite lstrip_digits by done.
  rewrite rstrip_digits by (simpl; by rewrite Hc, Hs).
  destruct (is_digit_not_sign c Hc) as [Hm Hp].
  assert (parse_digits false 0 (String c s)
          = Some (digits_value 0 (String c s))) as Hparse.
  { simpl. rewrite Hc. by apply parse_all_digits. }
  destruct c as [[] [] [] [] [] [] [] []]; try done.
Qed.

Lemma digits_value_nonneg s : ∀ acc,
  all_digits s = true → 0 ≤ acc → 0 ≤ digits_value acc s.
Proof.
  induction s as [|c s IH]; intros acc; [done|]. simpl.
  intros [Hc Hs]%andb_prop Hacc. apply IH; [done|].
  pose proof (is_digit_val_nonneg c Hc). lia.
Qed.

Lemma digits_of_all_digits fuel : ∀ n acc,
  0 ≤ n → all_digits acc = true → all_digits (digits_of fuel n acc) = true.
Proof.
  induction fuel as [|fuel IH]; intros n acc Hn Hacc; [done|]. simpl.
  assert (all_digits (String (digit_char (n mod 10)) acc) = true) as Hacc'.
  { simpl. rewrite Hacc.
    destruct (digit_char_spec (n mod 10)) as [-> _]; [|done].
    apply Z.mod_pos_bound. lia. }
  destruct (n <? 10); [done|]. apply IH; [|done]. apply Z.div_pos; lia.
Qed.

Lemma digits_of_nonempty fuel n acc :
  digits_of (S fuel) n acc ≠ EmptyString.
Proof.
  revert n acc. induction fuel as [|fuel IH]; intros n acc; simpl.
  - by destruct (n <? 10).
  - destruct (n <? 10); [done|]. apply (IH (n / 10)).
Qed.

Lemma digits_of_value fuel : ∀ n acc,
  0 ≤ n ≤ Z.of_nat fuel →
  digits_value 0 (digits_of fuel n acc) = digits_value n acc.
Proof.
  induction fuel as [|fuel IH]; intros n acc Hn.
  - simpl. by replace n with 0 by lia.
  - simpl.
    assert (0 ≤ n mod 10 < 10) as Hmod by (apply Z.mod_pos_bound; lia).
    destruct (digit_char_spec (n mod 10) Hmod) as [_ Hval].
    destruct (Z.ltb_spec n 10) as [Hlt|Hge].
    + simpl. rewrite Hval. f_equal. rewrite Z.mod_small; lia.
    + rewrite IH.
      * simpl. rewrite Hval. f_equal.
        pose proof (Z.div_mod n 10). lia.
      * split; [apply Z.div_pos; lia|].
        assert (n / 10 < n) by (apply Z.div_lt; lia). lia.
Qed.

Lemma isdigit_str_nonneg n : 0 ≤ n → isdigit (str_nonneg n) = true.
Proof.
  intros Hn. unfold str_nonneg.
  pose proof (digits_of_nonempty (Z.to_nat n) n "") as Hne.
  pose proof (digits_of_all_digits (S (Z.to_nat n)) n "" Hn eq_refl) as Hall.
  destruct (digits_of (S (Z.to_nat n)) n "") as [|c s]; [done|].
  by simpl in *.
Qed.

Lemma value_str_nonneg n : 0 ≤ n → digits_value 0 (str_nonneg n) = n.
Proof.
  intros Hn. unfold str_nonneg. rewrite digits_of_value by lia. done.
Qed.

Lemma isdigit_str n : 0 ≤ n → isdigit (str n) = true.
Proof.
  intros Hn. unfold str. destruct (Z.ltb_spec n 0); [lia|].
  by apply isdigit_str_nonneg.
Qed.

Lemma int_str n : 0 ≤ n → int (str n) = Some n.
Proof.
  intros Hn. rewrite int_isdigit by (by apply isdigit_str).
  unfold str. destruct (Z.ltb_spec n 0); [lia|].
  by rewrite value_str_nonneg.
Qed.

Lemma isdigit_starts_with_digit s :
  isdigit s = true → starts_with_digit s = true.
Proof. destruct s as [|c s]; [done|]. simpl. by intros [? _]%andb_prop. Qed.

Lemma str_inj n m : str n = str m → n = m.
Proof.
  unfold str. intros Heq.
  destruct (Z.ltb_spec n 0) as [Hn|Hn], (Z.ltb_spec m 0) as [Hm|Hm].
  - injection Heq as Heq.
    apply (f_equal (digits_value 0)) in Heq.
    rewrite !value_str_nonneg in Heq by lia. lia.
  - pose proof (isdigit_starts_with_digit _ (isdigit_str_nonneg m Hm)) as Hd.
    rewrite <- Heq in Hd. done.
  - pose proof (isdigit_starts_with_digit _ (isdigit_str_nonneg n Hn)) as Hd.
    rewrite Heq in Hd. done.
  - apply (f_equal (digits_value 0)) in Heq.
    by rewrite !value_str_nonneg in Heq by lia.
Qed.

Lemma int_isdigit_nonneg s n : isdigit s = true → int s = Some n → 0 ≤ n.
Proof.
  intros Hs. rewrite (int_isdigit s Hs). intros [= <-].
  destruct s as [|c s]; [done|]. by apply digits_value_nonneg.
Qed.

End decimal.

(** ** Appending messages *)

Lemma add_message_found now cid sender content d conv :
  conversations_of d !! cid = Some conv →
  add_message now cid sender content d
  = (true,
     mk_disk
       (Some (<[cid := mk_conversation (c_title conv) (c_preset_id conv)
                         (c_created_at conv) (Some (isoformat now))]>
                (conversations_of d)))
       (Some (<[cid := messages_of cid d
                       ++ [mk_message (Z.of_nat (length (messages_of cid d)) + 1)
                             sender content (Some (isoformat now))]]>
                (messages_doc d)))
       (presets_file d)).
Proof.
  unfold conversations_of, messages_of, messages_doc, add_message.
  intros ->. unfold save_conversations, save_messages. simpl.
  destruct (_load_json (messages_file d) !! cid) as [l|] eqn:Hl; simpl.
  - by rewrite Hl.
  - rewrite lookup_insert_eq. simpl. by rewrite insert_insert_eq.
Qed.

Lemma sequential_ids_snoc l sender content created :
  sequential_ids l →
  sequential_ids
    (l ++ [mk_message (Z.of_nat (length l) + 1) sender content created]).
Proof.
  unfold sequential_ids. intros Hl.
  rewrite fmap_app, length_app, Hl. simpl.
  rewrite Nat.add_1_r, seqZ_S. f_equal. f_equal. lia.
Qed.

Lemma append_all_sequential cid ops : ∀ d,
  is_Some (conversations_of d !! cid) →
  sequential_ids (messages_of cid d) →
  sequential_ids (messages_of cid (append_all cid ops d)).
Proof.
  induction ops as [|op ops IH]; intros d [conv Hconv] Hseq; [done|].
  simpl. rewrite (add_message_found _ _ _ _ _ conv Hconv). simpl.
  apply IH.
  - unfold conversations_of. simpl. rewrite lookup_insert_eq. by eexists.
  - unfold messages_of, messages_doc. simpl. rewrite lookup_insert_eq. simpl.
    by apply sequential_ids_snoc.
Qed.

(** C5: appending to an existing conversation whose stored ids are
    [1..n] gives the new message the id [n + 1], stamps the conversation's
    [updated_at] with the message's [created_at], and no run of further
    appends ever stores two messages of that conversation under one id. *)
Theorem add_message_assigns_next_id now cid sender content d conv :
  conversations_of d !! cid = Some conv →
  sequential_ids (messages_of cid d) →
  ∃ msg conv' d',
    add_message now cid sender content d = (true, d')
    ∧ messages_of cid d' = messages_of cid d ++ [msg]
    ∧ m_id msg = Z.of_nat (length (messages_of cid d)) + 1
    ∧ m_sender msg = sender ∧ m_content msg = content
    ∧ conversations_of d' !! cid = Some conv'
    ∧ c_updated_at conv' = m_created_at msg
    ∧ m_created_at msg = Some (isoformat now)
    ∧ ∀ ops, NoDup (m_id <$> messages_of cid (append_all cid ops d')).
Proof.
  intros Hconv Hseq. eexists _, _, _.
  split; [by apply add_message_found|].
  assert (∀ l (ms : gmap string (list Message)) cs ps,
            messages_of cid (mk_disk cs (Some (<[cid := l]> ms)) ps) = l) as Hmsgs.
  { intros. unfold messages_of, messages_doc. simpl.
    by rewrite lookup_insert_eq. }
  assert (∀ c (cs : gmap string Conversation) ms ps,
            conversations_of (mk_disk (Some (<[cid := c]> cs)) ms ps) !! cid
            = Some c) as Hconvs.
  { intros. unfold conversations_of. simpl. by rewrite lookup_insert_eq. }
  rewrite Hmsgs, Hconvs.
  do 7 (split; [reflexivity|]).
  intros ops. rewrite append_all_sequential; [apply NoDup_seqZ| |].
  - rewrite Hconvs. by eexists.
  - rewrite Hmsgs. by apply sequential_ids_snoc.
Qed.

(** C10: for a conversation id that the conversations document does not
    hold, [add_message] returns [False] and writes nothing. *)
Theorem add_message_absent_conversation now cid sender content d :
  conversations_of d !! cid = None →
  add_message now cid sender content d = (false, d).
Proof.
  unfold conversations_of, add_message. by intros ->.
Qed.

(** ** Deleting a conversation *)

(** C7: deleting a stored conversation succeeds, removes its record and
    its message list, leaves every other conversation and message list as
    it was, and [get_messages] on the deleted id then returns the empty
    list, for any [limit]. *)
Theorem delete_conversation_cascades cid d :
  is_Some (conversations_of d !! cid) →
  ∃ d',
    delete_conversation cid d = (true, d')
    ∧ get_conversation cid d' = None
    ∧ messages_doc d' !! cid = None
    ∧ (∀ limit, get_messages cid limit d' = [])
    ∧ (∀ other, other ≠ cid →
         conversations_of d' !! other = conversations_of d !! other
         ∧ messages_doc d' !! other = messages_doc d !! other)
    ∧ presets_file d' = presets_file d.
Proof.
  unfold conversations_of, messages_doc. intros [conv Hconv].
  unfold delete_conversation, get_conversation, get_messages. rewrite Hconv.
  destruct (_load_json (messages_file d) !! cid) as [l|] eqn:Hl.
  - eexists. split; [done|]. simpl. rewrite !lookup_delete_eq.
    repeat split; try done; by rewrite lookup_delete_ne.
  - eexists. split; [done|]. simpl. rewrite lookup_delete_eq, Hl.
    repeat split; try done. by rewrite lookup_delete_ne.
Qed.

Lemma add_message_assigns_next_id_witness :
  conversations_of disk_1 !! "c1" = Some conv_1
  ∧ sequential_ids (messages_of "c1" disk_1)
  ∧ ∃ msg conv' d',
      add_message now_0 "c1" "ai" "hello" disk_1 = (true, d')
      ∧ messages_of "c1" d' = messages_of "c1" disk_1 ++ [msg]
      ∧ m_id msg = Z.of_nat (length (messages_of "c1" disk_1)) + 1
      ∧ m_sender msg = "ai" ∧ m_content msg = "hello"
      ∧ conversations_of d' !! "c1" = Some conv'
      ∧ c_updated_at conv' = m_created_at msg
      ∧ m_created_at msg = Some (isoformat now_0)
      ∧ ∀ ops, NoDup (m_id <$> messages_of "c1" (append_all "c1" ops d')).
Proof.
  split; [reflexivity|]. split; [reflexivity|].
  apply (add_message_assigns_next_id now_0 "c1" "ai" "hello" disk_1 conv_1);
    reflexivity.
Defined.

Lemma add_message_absent_conversation_witness :
  conversations_of disk_1 !! "c2" = None
  ∧ add_message now_0 "c2" "user" "hi" disk_1 = (false, disk_1).
Proof.
  split; [reflexivity|].
  apply (add_message_absent_conversation now_0 "c2" "user" "hi" disk_1).
  reflexivity.
Defined.

Lemma delete_conversation_cascades_witness :
  is_Some (conversations_of disk_1 !! "c1")
  ∧ ∃ d',
      delete_conversation "c1" disk_1 = (true, d')
      ∧ get_conversation "c1" d' = None
      ∧ messages_doc d' !! "c1" = None
      ∧ (∀ limit, get_messages "c1" limit d' = [])
      ∧ (∀ other, other ≠ "c1" →
           conversations_of d' !! other = conversations_of disk_1 !! other
           ∧ messages_doc d' !! other = messages_doc disk_1 !! other)
      ∧ presets_file d' = presets_file disk_1.
Proof.
  assert (is_Some (conversations_of disk_1 !! "c1")) as H
    by (exists conv_1; reflexivity).
  split; [exact H|]. exact (delete_conversation_cascades "c1" disk_1 H).
Defined.

(** ** Retention sweep *)

Lemma collect_old_filter cutoff (conversations : gmap string Conversation) :
  collect_old cutoff conversations
  = (filter (λ kv : string * Conversation, is_old cutoff kv.2)
            (map_to_list conversations)).*1.
Proof.
  unfold collect_old.
  enough (∀ l acc,
    foldl (λ to_delete (kv : string * Conversation),
             if String.ltb (updated_text kv.2) cutoff
             then to_delete ++ [kv.1] else to_delete) acc l
    = acc ++ (filter (λ kv : string * Conversation, is_old cutoff kv.2) l).*1)
    as Hgen by apply (Hgen _ []).
  induction l as [|kv l IH]; intros acc; simpl.
  - by rewrite app_nil_r.
  - rewrite IH. rewrite filter_cons.
    destruct (decide (is_old cutoff kv.2)) as [Hold|Hold]; unfold is_old in Hold.
    + rewrite Hold. simpl. by rewrite <- app_assoc.
    + apply not_true_is_false in Hold. by rewrite Hold.
Qed.

Lemma elem_of_collect_old cutoff d cid :
  cid ∈ collect_old cutoff (conversations_of d) ↔ stale cutoff d cid.
Proof.
  rewrite collect_old_filter, list_elem_of_fmap. unfold stale. split.
  - intros ([k conv] & -> & [Hold Hin%elem_of_map_to_list]%list_elem_of_filter).
    by exists conv.
  - intros (conv & Hconv & Hold). exists (cid, conv). split; [done|].
    apply list_elem_of_filter. split; [done|]. by apply elem_of_map_to_list.
Qed.

Lemma delete_step_lookup to_delete : ∀ conversations messages cid,
  let result := foldl delete_step (conversations, messages) to_delete in
  (cid ∈ to_delete → result.1 !! cid = None ∧ result.2 !! cid = None)
  ∧ (cid ∉ to_delete →
     result.1 !! cid = conversations !! cid
     ∧ result.2 !! cid = (messages : gmap string (list Message)) !! cid).
Proof.
  induction to_delete as [|k to_delete IH]; intros conversations messages cid.
  - simpl. split; [by intros ?%elem_of_nil|done].
  - set (messages' := match messages !! k with
                      | Some _ => delete k messages
                      | None => messages
                      end).
    cbn [foldl].
    change (delete_step (conversations, messages) k)
      with (delete k conversations, messages').
    assert (∀ j, messages' !! j = delete k messages !! j) as Hmsg.
    { intros j. unfold messages'.
      destruct (messages !! k) eqn:Hk; [done|].
      by rewrite delete_id. }
    destruct (IH (delete k conversations) messages' cid) as [Hin Hout].
    split.
    + intros Hcid. destruct (decide (cid ∈ to_delete)) as [?|Hnot]; [auto|].
      apply elem_of_cons in Hcid as [->|?]; [|done].
      destruct (Hout Hnot) as [-> ->].
      by rewrite Hmsg, !lookup_delete_eq.
    + intros Hcid. apply not_elem_of_cons in Hcid as [Hne Hnot].
      destruct (Hout Hnot) as [-> ->].
      by rewrite Hmsg, !lookup_delete_ne.
Qed.

Lemma length_collect_old cutoff (conversations : gmap string Conversation) :
  length (collect_old cutoff conversations)
  = size (filter (λ kv : string * Conversation, is_old cutoff kv.2)
                 conversations).
Proof.
  rewrite collect_old_filter, length_fmap, <- length_map_to_list.
  apply Permutation_length, NoDup_Permutation.
  - apply NoDup_filter, NoDup_map_to_list.
  - apply NoDup_map_to_list.
  - intros [k conv].
    rewrite list_elem_of_filter, !elem_of_map_to_list, map_lookup_filter_Some.
    tauto.
Qed.

Lemma cleanup_messages_lookup now days d cutoff :
  cutoff_date now days = Some cutoff →
  ∃ d',
    cleanup_old_conversations now days d
    = Some (Z.of_nat (length (collect_old cutoff (conversations_of d))), d')
    ∧ ∀ cid, messages_doc d' !! cid = None
             ∨ messages_doc d' !! cid = messages_doc d !! cid.
Proof.
  intros Hcut. unfold cleanup_old_conversations. rewrite Hcut. simpl.
  change (_load_json (conversations_file d)) with (conversations_of d).
  change (_load_json (messages_file d)) with (messages_doc d).
  pose proof (delete_step_lookup (collect_old cutoff (conversations_of d))
                (conversations_of d) (messages_doc d)) as Hlook.
  destruct (foldl delete_step (conversations_of d, messages_doc d)
              (collect_old cutoff (conversations_of d)))
    as [conversations' messages'] eqn:Hfold.
  simpl in Hlook. eexists. split; [reflexivity|]. intros cid.
  change (messages_doc
            (save_messages messages' (save_conversations conversations' d)))
    with messages'.
  destruct (decide (cid ∈ collect_old cutoff (conversations_of d))) as [Hin|Hin].
  - left. by apply Hlook.
  - right. by apply Hlook.
Qed.

(** C1, as the code has it: the cutoff is the ISO text of [now] cut to the
    whole second, less [days] days; exactly the conversations whose
    [updated_at] text is below that text are deleted, each with its message
    list; every other conversation and message list, and the presets, stay
    as they were; the result is the number of conversations deleted. *)
Theorem cleanup_deletes_below_cutoff now days d cutoff :
  cutoff_date now days = Some cutoff →
  ∃ d',
    cleanup_old_conversations now days d
    = Some (Z.of_nat (size (filter (λ kv : string * Conversation,
                                      is_old cutoff kv.2)
                                   (conversations_of d))), d')
    ∧ (∀ cid, stale cutoff d cid →
         conversations_of d' !! cid = None ∧ messages_doc d' !! cid = None)
    ∧ (∀ cid, ¬ stale cutoff d cid →
         conversations_of d' !! cid = conversations_of d !! cid
         ∧ messages_doc d' !! cid = messages_doc d !! cid)
    ∧ presets_file d' = presets_file d.
Proof.
  intros Hcut. unfold cleanup_old_conversations. rewrite Hcut. simpl.
  change (_load_json (conversations_file d)) with (conversations_of d).
  change (_load_json (messages_file d)) with (messages_doc d).
  pose proof (delete_step_lookup (collect_old cutoff (conversations_of d))
                (conversations_of d) (messages_doc d)) as Hlook.
  destruct (foldl delete_step (conversations_of d, messages_doc d)
              (collect_old cutoff (conversations_of d)))
    as [conversations' messages'] eqn:Hfold.
  simpl in Hlook.
  exists (save_messages messages' (save_conversations conversations' d)).
  change (conversations_of
            (save_messages messages' (save_conversations conversations' d)))
    with conversations'.
  change (messages_doc
            (save_messages messages' (save_conversations conversations' d)))
    with messages'.
  split; [by rewrite length_collect_old|].
  split; [|split; [|done]].
  - intros cid Hstale. apply Hlook. by apply elem_of_collect_old.
  - intros cid Hstale. apply Hlook. by rewrite elem_of_collect_old.
Qed.

Lemma cleanup_deletes_below_cutoff_witness :
  cutoff_date next_day 1 = Some "2024-01-01T12:00:00"
  ∧ ∃ d',
      cleanup_old_conversations next_day 1 disk_1
      = Some (Z.of_nat (size (filter (λ kv : string * Conversation,
                                        is_old "2024-01-01T12:00:00" kv.2)
                                     (conversations_of disk_1))), d')
      ∧ (∀ cid, stale "2024-01-01T12:00:00" disk_1 cid →
           conversations_of d' !! cid = None ∧ messages_doc d' !! cid = None)
      ∧ (∀ cid, ¬ stale "2024-01-01T12:00:00" disk_1 cid →
           conversations_of d' !! cid = conversations_of disk_1 !! cid
           ∧ messages_doc d' !! cid = messages_doc disk_1 !! cid)
      ∧ presets_file d' = presets_file disk_1.
Proof.
  split; [reflexivity|].
  apply (cleanup_deletes_below_cutoff next_day 1 disk_1). reflexivity.
Defined.

(** The code at the sample: the cutoff is the start of the current second,
    and the conversation stamped within that second stays. *)
Lemma cleanup_sample :
  cutoff_date now_0 0 = Some "2024-01-01T12:00:00"
  ∧ updated_text conv_1 = "2024-01-01T12:00:00.500000"
  ∧ cleanup_old_conversations now_0 0 disk_1 = Some (0, disk_1).
Proof. repeat split. Qed.

(** C1 as stated fails: at [now_0], with no retention, the conversation
    stamped two tenths of a second earlier is in the past and is kept. *)
Lemma cleanup_keeps_current_second :
  ¬ cleanup_by_instant now_0 0 disk_1.
Proof.
  intros Hclaim.
  specialize (Hclaim now_0 0 disk_1 eq_refl eq_refl "c1" conv_1 half_past
                     eq_refl eq_refl eq_refl).
  vm_compute in Hclaim. discriminate.
Qed.

(** ** Statistics *)

Lemma ltb_false_leb a b : String.ltb a b = false ↔ String.leb b a = true.
Proof.
  unfold String.ltb, String.leb. rewrite (String.compare_antisym a b).
  destruct (String.compare b a); simpl; split; congruence.
Qed.

Lemma ltb_true_leb a b : String.ltb a b = true → String.leb a b = true.
Proof.
  unfold String.ltb, String.leb. destruct (String.compare a b); congruence.
Qed.

Lemma leb_trans a b c :
  String.leb a b = true → String.leb b c = true → String.leb a c = true.
Proof.
  intros Hab Hbc. apply Is_true_true.
  change (String.le a c). transitivity b; by apply Is_true_true.
Qed.

Lemma length_filter_map_to_list {A} (P : string * A → Prop)
    `{∀ x, Decision (P x)} (m : gmap string A) :
  length (filter P (map_to_list m)) = size (filter P m).
Proof.
  rewrite <- length_map_to_list.
  apply Permutation_length, NoDup_Permutation.
  - apply NoDup_filter, NoDup_map_to_list.
  - apply NoDup_map_to_list.
  - intros [k x].
    rewrite list_elem_of_filter, !elem_of_map_to_list, map_lookup_filter_Some.
    tauto.
Qed.

Lemma total_messages_concat (l : list (string * list Message)) : ∀ total,
  foldl (λ total (kv : string * list Message),
           total + Z.of_nat (length kv.2)) total l
  = total + Z.of_nat (length (concat (l.*2))).
Proof.
  induction l as [|kv l IH]; intros total; [simpl; lia|].
  cbn [foldl fmap list_fmap concat]. rewrite IH, length_app, Nat2Z.inj_add. lia.
Qed.

Lemma stats_step_recent seven (l : list (string * Conversation)) : ∀ acc,
  (foldl (stats_step seven) acc (l.*2)).1
  = acc.1 + Z.of_nat (length (filter (λ kv : string * Conversation,
                                        is_recent seven kv.2) l)).
Proof.
  induction l as [|kv l IH]; intros acc; simpl; [lia|].
  rewrite IH, filter_cons. simpl.
  destruct (decide (is_recent seven kv.2)) as [Hr|Hr]; unfold is_recent in Hr.
  - rewrite Hr. simpl. lia.
  - apply not_false_is_true in Hr. rewrite Hr. simpl. lia.
Qed.

(** The oldest date of the loop: once a non-empty text is held, the held
    text is a least one among those seen. *)
Lemma stats_step_oldest seven (l : list Conversation) : ∀ acc,
  (∀ o, acc.2 = Some o → o ≠ "") →
  Forall (λ conv, created_text conv ≠ "") l →
  let result := (foldl (stats_step seven) acc l).2 in
  (result = None ↔ acc.2 = None ∧ l = [])
  ∧ ∀ r, result = Some r →
      (acc.2 = Some r ∨ ∃ conv, conv ∈ l ∧ created_text conv = r)
      ∧ (∀ o, acc.2 = Some o → String.leb r o = true)
      ∧ ∀ conv, conv ∈ l → String.leb r (created_text conv) = true.
Proof.
  induction l as [|conv l IH]; intros acc Hacc Hl.
  - simpl. split; [tauto|]. intros r Hr. split; [by left|]. split.
    + intros o Ho. rewrite Hr in Ho. injection Ho as ->.
      apply Is_true_true. change (String.le o o). done.
    + by intros ? ?%elem_of_nil.
  - apply Forall_cons in Hl as [Hconv Hl]. cbn [foldl].
    set (acc' := stats_step seven acc conv).
    assert (∃ o', acc'.2 = Some o' ∧ o' ≠ ""
                  ∧ (o' = created_text conv ∨ acc.2 = Some o')
                  ∧ String.leb o' (created_text conv) = true
                  ∧ ∀ o, acc.2 = Some o → String.leb o' o = true)
      as (o' & Ho' & Hne & Hfrom & Hle & Hlow).
    { unfold acc', stats_step. simpl.
      assert (∀ x, String.leb x x = true) as Hrefl.
      { intros x. apply Is_true_true. change (String.le x x). done. }
      destruct (acc.2) as [o|] eqn:Hold.
      - specialize (Hacc o eq_refl).
        destruct (String.eqb_spec o "") as [->|_]; [done|]. simpl.
        destruct (String.ltb (created_text conv) o) eqn:Hlt.
        + eexists. split; [done|]. split; [done|]. split; [by left|].
          split; [done|]. intros ? [= <-]. by apply ltb_true_leb.
        + eexists. split; [done|]. split; [done|]. split; [by right|].
          split; [by apply ltb_false_leb|]. by intros ? [= <-].
      - eexists. split; [done|]. split; [done|]. split; [by left|].
        split; [done|]. done. }
    destruct (IH acc') as [Hnone Hsome]; [|done|].
    { intros o Ho. rewrite Ho' in Ho. by injection Ho as <-. }
    split.
    + split; [|by intros [_ ?]]. intros Hres. apply Hnone in Hres as [Hres _].
      by rewrite Ho' in Hres.
    + intros r Hr. destruct (Hsome r Hr) as (Hin & Hbelow & Hall).
      specialize (Hbelow o' Ho'). split; [|split].
      * destruct Hin as [Hin|(c & Hc & Hcr)].
        -- rewrite Ho' in Hin. injection Hin as <-.
           destruct Hfrom as [->|?]; [|by left].
           right. exists conv. split; [left|done].
        -- right. exists c. split; [by right|done].
      * intros o Ho. eapply leb_trans; [exact Hbelow|]. by apply Hlow.
      * intros c [->|Hc]%elem_of_cons; [|by apply Hall].
        eapply leb_trans; [exact Hbelow|exact Hle].
Qed.

(** C9, as the code has it: the record holds the number of conversations,
    the number of stored messages over all message lists, the number of
    conversations whose [created_at] text is not below the ISO text of
    [now] cut to the whole second less seven days, the least [created_at]
    text (none when there is no conversation), and the constant 30.  The
    conversations are taken to carry a non-empty [created_at]. *)
Theorem get_statistics_reports now d seven :
  cutoff_date now 7 = Some seven →
  (∀ cid conv, conversations_of d !! cid = Some conv → created_text conv ≠ "") →
  ∃ st,
    get_statistics now d = Some st
    ∧ total_conversations st = Z.of_nat (size (conversations_of d))
    ∧ total_messages st = Z.of_nat (length (all_messages d))
    ∧ recent_conversations_7_days st
      = Z.of_nat (size (filter (λ kv : string * Conversation,
                                  is_recent seven kv.2) (conversations_of d)))
    ∧ (oldest_conversation_date st = None ↔ conversations_of d = ∅)
    ∧ (∀ o, oldest_conversation_date st = Some o →
         (∃ cid conv, conversations_of d !! cid = Some conv
                      ∧ created_text conv = o)
         ∧ ∀ cid conv, conversations_of d !! cid = Some conv →
                       String.ltb (created_text conv) o = false)
    ∧ max_age_days st = 30.
Proof.
  unfold cutoff_date, get_statistics. intros Hcut Hcreated.
  destruct (sub_days (replace_microsecond_0 now) 7) as [t|]; [|done].
  injection Hcut as Hcut. simpl. rewrite Hcut.
  change (_load_json (conversations_file d)) with (conversations_of d).
  change (_load_json (messages_file d)) with (messages_doc d).
  pose proof (stats_step_recent seven (map_to_list (conversations_of d))
                (0, None)) as Hrecent.
  pose proof (stats_step_oldest seven ((map_to_list (conversations_of d)).*2)
                (0, None)) as Holdest.
  destruct (foldl (stats_step seven) (0, None)
              ((map_to_list (conversations_of d)).*2))
    as [recent oldest] eqn:Hfold.
  simpl in Hrecent, Holdest.
  assert (∀ conv, conv ∈ (map_to_list (conversations_of d)).*2
                  ↔ ∃ cid, conversations_of d !! cid = Some conv) as Hvalues.
  { intros conv. rewrite list_elem_of_fmap. split.
    - intros ([cid c] & -> & Hin%elem_of_map_to_list). by exists cid.
    - intros [cid Hcid]. exists (cid, conv). split; [done|].
      by apply elem_of_map_to_list. }
  destruct Holdest as [Hnone Hsome]; [done| |].
  { apply Forall_forall. intros conv [cid Hcid]%Hvalues. by eapply Hcreated. }
  eexists. split; [reflexivity|]. simpl.
  split; [done|]. split; [by rewrite total_messages_concat|].
  split; [by rewrite Hrecent, length_filter_map_to_list|].
  split; [|split; [|done]].
  - rewrite Hnone. split.
    + intros [_ Hnil]. apply fmap_nil_inv in Hnil.
      by apply map_to_list_empty_iff.
    + intros ->. by rewrite map_to_list_empty.
  - intros o Ho. destruct (Hsome o Ho) as ([?|(conv & Hin & Hcr)] & _ & Hall);
      [done|]. split.
    + apply Hvalues in Hin as [cid Hcid]. by exists cid, conv.
    + intros cid conv' Hconv'. apply ltb_false_leb, Hall, Hvalues.
      by exists cid.
Qed.

Lemma get_statistics_reports_witness :
  cutoff_date day_21 7 = Some "2024-01-14T09:30:00"
  ∧ (∀ cid conv, conversations_of disk_2 !! cid = Some conv →
                 created_text conv ≠ "")
  ∧ ∃ st,
      get_statistics day_21 disk_2 = Some st
      ∧ total_conversations st = Z.of_nat (size (conversations_of disk_2))
      ∧ total_messages st = Z.of_nat (length (all_messages disk_2))
      ∧ recent_conversations_7_days st
        = Z.of_nat (size (filter (λ kv : string * Conversation,
                                    is_recent "2024-01-14T09:30:00" kv.2)
                                 (conversations_of disk_2)))
      ∧ (oldest_conversation_date st = None ↔ conversations_of disk_2 = ∅)
      ∧ (∀ o, oldest_conversation_date st = Some o →
           (∃ cid conv, conversations_of disk_2 !! cid = Some conv
                        ∧ created_text conv = o)
           ∧ ∀ cid conv, conversations_of disk_2 !! cid = Some conv →
                         String.ltb (created_text conv) o = false)
      ∧ max_age_days st = 30.
Proof.
  assert (∀ cid conv, conversations_of disk_2 !! cid = Some conv →
                      created_text conv ≠ "") as Hcreated.
  { intros cid conv Hconv.
    change (conversations_of disk_2) with
      ({["c2" := conv_2]} : gmap string Conversation) in Hconv.
    apply lookup_singleton_Some in Hconv as [_ <-]. discriminate. }
  split; [reflexivity|]. split; [exact Hcreated|].
  exact (get_statistics_reports day_21 disk_2 "2024-01-14T09:30:00"
           eq_refl Hcreated).
Defined.

(** The code at the sample: one conversation, created twenty days before
    [day_21] and written to the day before; the recent count is 0. *)
Lemma get_statistics_sample :
  get_statistics day_21 disk_2
  = Some (mk_statistics 1 0 0 (Some "2024-01-01T09:30:00") 30).
Proof. reflexivity. Qed.

(** C9 as stated fails: the recent count is not the number of
    conversations updated in the last seven days. *)
Lemma recent_count_ignores_updates : ¬ counts_updated day_21 disk_2.
Proof.
  intros Hclaim.
  specialize (Hclaim "2024-01-14T09:30:00" _ eq_refl get_statistics_sample).
  vm_compute in Hclaim. discriminate.
Qed.

(** ** Connection registry *)

Lemma remove_first_absent (x : WebSocket) l : x ∉ l → Py.remove_first x l = l.
Proof.
  induction l as [|y l IH]; [done|]. intros [Hne Hl]%not_elem_of_cons. simpl.
  rewrite decide_False by done. by rewrite IH.
Qed.

Lemma remove_first_app (x : WebSocket) pre l :
  x ∉ pre → Py.remove_first x (pre ++ x :: l) = pre ++ l.
Proof.
  induction pre as [|y pre IH]; simpl.
  - intros _. by rewrite decide_True.
  - intros [Hne Hpre]%not_elem_of_cons. rewrite decide_False by done.
    by rewrite IH.
Qed.

Lemma group_of_disconnect websocket cid reg :
  group_of cid (disconnect websocket cid reg)
  = Py.remove_first websocket (group_of cid reg).
Proof.
  unfold group_of, disconnect.
  destruct (reg !! cid) as [group|] eqn:Hgroup; simpl; [|by rewrite Hgroup].
  assert ((if decide (websocket ∈ group)
           then Py.remove_first websocket group else group)
          = Py.remove_first websocket group) as ->.
  { case_decide; [done|]. by rewrite remove_first_absent. }
  destruct (Py.remove_first websocket group).
  - by rewrite lookup_delete_eq.
  - by rewrite lookup_insert_eq.
Qed.

Lemma lookup_disconnect_ne websocket cid other reg :
  other ≠ cid → disconnect websocket cid reg !! other = reg !! other.
Proof.
  intros Hne. unfold disconnect. destruct (reg !! cid) as [group|]; [|done].
  destruct (if decide (websocket ∈ group)
            then Py.remove_first websocket group else group).
  - by rewrite lookup_delete_ne.
  - by rewrite lookup_insert_ne.
Qed.

Lemma disconnect_all_group failed cid : ∀ reg,
  group_of cid (foldl (λ ac c, disconnect c cid ac) reg failed)
  = foldl (λ group c, Py.remove_first c group) (group_of cid reg) failed.
Proof.
  induction failed as [|c failed IH]; intros reg; [done|]. simpl.
  by rewrite IH, group_of_disconnect.
Qed.

Lemma disconnect_all_ne failed cid other : ∀ reg,
  other ≠ cid →
  foldl (λ ac c, disconnect c cid ac) reg failed !! other = reg !! other.
Proof.
  induction failed as [|c failed IH]; intros reg Hne; [done|]. simpl.
  by rewrite IH, lookup_disconnect_ne.
Qed.

Lemma remove_failed send_fails group : ∀ pre,
  Forall (delivered send_fails) pre →
  foldl (λ group c, Py.remove_first c group) (pre ++ group)
        (filter (λ c, send_fails c = true) group)
  = pre ++ filter (delivered send_fails) group.
Proof.
  induction group as [|c group IH]; intros pre Hpre; [done|].
  destruct (send_fails c) eqn:Hc.
  - rewrite (filter_cons_True (λ c : WebSocket, send_fails c = true)) by done.
    rewrite (filter_cons_False (delivered send_fails))
      by (unfold delivered; congruence).
    simpl. rewrite remove_first_app; [by apply IH|].
    intros Hin. rewrite Forall_forall in Hpre. specialize (Hpre c Hin).
    unfold delivered in Hpre. congruence.
  - rewrite (filter_cons_False (λ c : WebSocket, send_fails c = true)) by congruence.
    rewrite (filter_cons_True (delivered send_fails)) by done.
    rewrite (cons_middle c pre group), app_assoc, IH.
    + by rewrite <- app_assoc.
    + apply Forall_app. split; [done|]. by apply Forall_singleton.
Qed.

Lemma broadcast_loop {Payload} (send_fails : WebSocket → bool)
    (message : Payload) (group : list WebSocket) :
  ∀ sent failed,
  foldl (λ (acc : list (WebSocket * Payload * bool) * list WebSocket) c,
           if send_fails c
           then (acc.1 ++ [(c, message, false)], acc.2 ++ [c])
           else (acc.1 ++ [(c, message, true)], acc.2))
        (sent, failed) group
  = (sent ++ ((λ c, (c, message, negb (send_fails c))) <$> group),
     failed ++ filter (λ c, send_fails c = true) group).
Proof.
  induction group as [|c group IH]; intros sent failed; simpl.
  - by rewrite !app_nil_r.
  - destruct (send_fails c) eqn:Hc; simpl; rewrite IH.
    + rewrite (filter_cons_True (λ c : WebSocket, send_fails c = true)) by done.
      by rewrite <- !app_assoc.
    + rewrite (filter_cons_False (λ c : WebSocket, send_fails c = true)) by congruence.
      by rewrite <- !app_assoc.
Qed.

Lemma broadcast_result {Payload} send_fails cid (message : Payload) reg :
  broadcast_to_conversation send_fails cid message reg
  = (foldl (λ ac c, disconnect c cid ac) reg
           (filter (λ c, send_fails c = true) (group_of cid reg)),
     (λ c, (c, message, negb (send_fails c))) <$> group_of cid reg).
Proof.
  unfold broadcast_to_conversation, group_of.
  destruct (reg !! cid) as [group|]; [|done]. simpl.
  by rewrite broadcast_loop.
Qed.

Lemma group_of_broadcast {Payload} send_fails cid (message : Payload) reg :
  group_of cid (broadcast_to_conversation send_fails cid message reg).1
  = filter (delivered send_fails) (group_of cid reg).
Proof.
  rewrite broadcast_result. simpl. rewrite disconnect_all_group.
  by apply (remove_failed send_fails (group_of cid reg) []).
Qed.

Lemma foldl_length_concat (l : list (string * list WebSocket)) : ∀ total,
  foldl (λ total (kv : string * list WebSocket),
           total + Z.of_nat (length kv.2)) total l
  = total + Z.of_nat (length (concat l.*2)).
Proof.
  induction l as [|kv l IH]; intros total; [simpl; lia|].
  cbn [foldl]. rewrite IH, fmap_cons. cbn [concat].
  rewrite length_app, Nat2Z.inj_add. lia.
Qed.

Lemma count_counted_channels conversation_id reg :
  get_active_connections_count conversation_id reg
  = Z.of_nat (length (counted_channels conversation_id reg)).
Proof.
  unfold get_active_connections_count, counted_channels.
  rewrite foldl_length_concat, Z.add_0_l.
  destruct conversation_id as [cid|]; [|done].
  by destruct (String.eqb cid "").
Qed.

Lemma elem_of_concat {A} (x : A) (ls : list (list A)) :
  x ∈ concat ls → ∃ l, x ∈ l ∧ l ∈ ls.
Proof.
  induction ls as [|l ls IH]; simpl; [by intros ?%elem_of_nil|].
  intros [Hx|Hx]%elem_of_app.
  - exists l. split; [done|]. by left.
  - destruct (IH Hx) as (l' & ? & ?). exists l'. split; [done|]. by right.
Qed.

Lemma elem_of_all_groups (c : WebSocket) reg :
  c ∈ concat (map_to_list reg).*2 → ∃ cid, c ∈ group_of cid reg.
Proof.
  intros (group & Hc & Hgroup)%elem_of_concat.
  apply list_elem_of_fmap in Hgroup as ([cid g] & -> & Hkv).
  apply elem_of_map_to_list in Hkv. exists cid.
  unfold group_of. by rewrite Hkv.
Qed.

Lemma length_concat_perm {A} (l1 l2 : list (list A)) :
  l1 ≡ₚ l2 → length (concat l1) = length (concat l2).
Proof.
  induction 1 as [|l l1 l2 _ IH|l l' l1|l1 l2 l3 _ IH1 _ IH2]; simpl;
    rewrite ?length_app; lia.
Qed.

Lemma all_groups_split cid reg :
  length (concat (map_to_list reg).*2)
  = (length (group_of cid reg)
     + length (concat (map_to_list (delete cid reg)).*2))%nat.
Proof.
  unfold group_of. destruct (reg !! cid) as [g|] eqn:Hg; simpl.
  - rewrite <- (length_concat_perm _ _
                  (fmap_Permutation snd _ _ (map_to_list_delete reg cid g Hg))).
    rewrite fmap_cons. simpl. by rewrite length_app.
  - by rewrite delete_id.
Qed.

Lemma length_delivered_failed send_fails (group : list WebSocket) :
  length group
  = (length (filter (delivered send_fails) group)
     + length (filter (λ c, send_fails c = true) group))%nat.
Proof.
  induction group as [|c group IH]; [done|].
  destruct (send_fails c) eqn:Hc.
  - rewrite (filter_cons_True (λ c : WebSocket, send_fails c = true)) by done.
    rewrite (filter_cons_False (delivered send_fails))
      by (unfold delivered; congruence).
    simpl. lia.
  - rewrite (filter_cons_False (λ c : WebSocket, send_fails c = true))
      by congruence.
    rewrite (filter_cons_True (delivered send_fails)) by done.
    simpl. lia.
Qed.

(** C2: every channel of the group is sent the payload, in registration
    order, and the call returns whatever the sends do; the channels whose
    send raised are out of the group when it returns, the others stay, in
    order; the other groups are as they were.  [active_count] of the id is
    then lower than before the call by the number of sends that raised.  It
    counts the channels listed by [counted_channels]: a channel whose send
    raised is not among them, for an id other than the empty string, and for
    the empty string as long as the channel was registered under no other
    id; and for an id other than the empty string the count is the number
    of channels that took the payload. *)
Theorem broadcast_drops_failed send_fails cid (message : string) reg :
  ∃ reg',
    broadcast_to_conversation send_fails cid message reg
    = (reg', (λ c, (c, message, negb (send_fails c))) <$> group_of cid reg)
    ∧ group_of cid reg' = filter (delivered send_fails) (group_of cid reg)
    ∧ (∀ c, send_fails c = true → c ∉ group_of cid reg')
    ∧ (∀ other, other ≠ cid → reg' !! other = reg !! other)
    ∧ get_active_connections_count (Some cid) reg'
      = get_active_connections_count (Some cid) reg
        - Z.of_nat (length (filter (λ c, send_fails c = true)
                                   (group_of cid reg)))
    ∧ get_active_connections_count (Some cid) reg'
      = Z.of_nat (length (counted_channels (Some cid) reg'))
    ∧ (∀ c, send_fails c = true →
         cid ≠ "" ∨ (∀ other, other ≠ cid → c ∉ group_of other reg) →
         c ∉ counted_channels (Some cid) reg')
    ∧ (cid ≠ "" →
       get_active_connections_count (Some cid) reg'
       = Z.of_nat (length (filter (delivered send_fails) (group_of cid reg)))).
Proof.
  eexists. split; [apply broadcast_result|].
  pose proof (group_of_broadcast send_fails cid message reg) as Hgroup.
  rewrite broadcast_result in Hgroup. simpl in Hgroup.
  set (reg' := foldl (λ ac c, disconnect c cid ac) reg
                 (filter (λ c, send_fails c = true) (group_of cid reg)))
    in *.
  assert (∀ c, send_fails c = true → c ∉ group_of cid reg') as Hout.
  { intros c Hc. rewrite Hgroup, list_elem_of_filter. unfold delivered.
    intros [? _]. congruence. }
  assert (∀ other, other ≠ cid → reg' !! other = reg !! other) as Hother.
  { intros other Hne. by apply disconnect_all_ne. }
  split; [done|]. split; [done|]. split; [done|]. split.
  { rewrite !count_counted_channels. unfold counted_channels.
    pose proof (length_delivered_failed send_fails (group_of cid reg)).
    destruct (String.eqb cid ""); [|rewrite Hgroup; lia].
    rewrite (all_groups_split cid reg'), (all_groups_split cid reg), Hgroup.
    replace (delete cid reg') with (delete cid reg); [lia|].
    apply map_eq. intros k. destruct (decide (k = cid)) as [->|Hne].
    - by rewrite !lookup_delete_eq.
    - by rewrite !lookup_delete_ne, Hother. }
  split; [apply count_counted_channels|]. split.
  - intros c Hc Hcase. unfold counted_channels.
    destruct (String.eqb_spec cid "") as [Hempty|Hne]; [|by apply Hout].
    destruct Hcase as [?|Honly]; [done|].
    intros [other Hin]%elem_of_all_groups.
    destruct (decide (other = cid)) as [->|Hne]; [by apply (Hout c)|].
    apply (Honly other Hne). unfold group_of in *.
    by rewrite <- (Hother other Hne).
  - intros Hcid. rewrite count_counted_channels. unfold counted_channels.
    destruct (String.eqb_spec cid "") as [?|_]; [done|]. by rewrite Hgroup.
Qed.

(** The code at the sample: the second of three channels fails. *)
Lemma broadcast_sample :
  broadcast_to_conversation fails_2 "a" "hi" reg_2
  = ({["a" := [1%nat; 3%nat]]},
     [(1%nat, "hi", true); (2%nat, "hi", false); (3%nat, "hi", true)]).
Proof. reflexivity. Qed.

(** The code at the empty id: the count is the total over the groups,
    three before the pass and two after it. *)
Lemma broadcast_empty_id_sample :
  get_active_connections_count (Some "") reg_3 = 3
  ∧ broadcast_to_conversation fails_2 "" "hi" reg_3
    = ({["" := [1%nat]; "a" := [3%nat]]},
       [(1%nat, "hi", true); (2%nat, "hi", false)])
  ∧ get_active_connections_count (Some "")
      (broadcast_to_conversation fails_2 "" "hi" reg_3).1 = 2.
Proof. by repeat split. Qed.

Lemma connect_no_empty_group websocket cid reg reg' :
  no_empty_group reg →
  connect true websocket cid reg = Some reg' →
  no_empty_group reg'.
Proof.
  unfold connect. intros Hreg [= <-] k group.
  destruct (decide (k = cid)) as [->|Hne].
  - rewrite lookup_insert_eq. intros [= <-]. by intros [? ?]%app_eq_nil.
  - rewrite lookup_insert_ne by done.
    destruct (reg !! cid); [apply Hreg|].
    rewrite lookup_insert_ne by done. apply Hreg.
Qed.

Lemma disconnect_no_empty_group websocket cid reg :
  no_empty_group reg → no_empty_group (disconnect websocket cid reg).
Proof.
  intros Hreg k group. destruct (decide (k = cid)) as [->|Hne].
  - unfold disconnect. destruct (reg !! cid) as [g|] eqn:Hg; [|by rewrite Hg].
    destruct (if decide (websocket ∈ g)
              then Py.remove_first websocket g else g) eqn:Hrest.
    + by rewrite lookup_delete_eq.
    + rewrite lookup_insert_eq. by intros [= <-].
  - rewrite lookup_disconnect_ne by done. apply Hreg.
Qed.

Lemma disconnect_all_no_empty_group failed cid : ∀ reg,
  no_empty_group reg →
  no_empty_group (foldl (λ ac c, disconnect c cid ac) reg failed).
Proof.
  induction failed as [|c failed IH]; intros reg Hreg; [done|]. simpl.
  by apply IH, disconnect_no_empty_group.
Qed.

Lemma step_no_empty_group reg op :
  no_empty_group reg → no_empty_group (step reg op).
Proof.
  intros Hreg. destruct op as [[] websocket cid|websocket cid|send_fails cid message];
    simpl.
  - by eapply connect_no_empty_group.
  - done.
  - by apply disconnect_no_empty_group.
  - rewrite broadcast_result. by apply disconnect_all_no_empty_group.
Qed.

Lemma steps_no_empty_group ops : ∀ reg,
  no_empty_group reg → no_empty_group (foldl step reg ops).
Proof.
  induction ops as [|op ops IH]; intros reg Hreg; [done|]. simpl.
  by apply IH, step_no_empty_group.
Qed.

(** C8: in every registry reached from the empty one by joins, leaves and
    broadcasts, a conversation id that is present maps to a non-empty
    group; and when that group is a single channel, the leave of that
    channel removes the entry. *)
Theorem registry_groups_never_empty ops cid group :
  run ops !! cid = Some group →
  group ≠ []
  ∧ ∀ websocket, group = [websocket] →
      disconnect websocket cid (run ops) !! cid = None.
Proof.
  intros Hgroup. split.
  - eapply (steps_no_empty_group ops ∅); [|exact Hgroup].
    intros k g. by rewrite lookup_empty.
  - intros websocket ->. unfold disconnect. rewrite Hgroup.
    rewrite decide_True by (by apply list_elem_of_singleton).
    simpl. rewrite decide_True by done. by rewrite lookup_delete_eq.
Qed.

Lemma registry_groups_never_empty_witness :
  run [Join true 1%nat "a"; Join true 2%nat "a"; Broadcast fails_2 "a" "hi"]
    !! "a" = Some [1%nat]
  ∧ [1%nat] ≠ []
  ∧ ∀ websocket, [1%nat] = [websocket] →
      disconnect websocket "a"
        (run [Join true 1%nat "a"; Join true 2%nat "a";
              Broadcast fails_2 "a" "hi"]) !! "a" = None.
Proof.
  split; [reflexivity|].
  apply (registry_groups_never_empty
           [Join true 1%nat "a"; Join true 2%nat "a";
            Broadcast fails_2 "a" "hi"] "a" [1%nat]).
  reflexivity.
Defined.

(** ** Presets *)

Lemma elem_of_existing_ids presets x :
  x ∈ existing_ids presets
  ↔ ∃ k p, presets !! k = Some p ∧ Py.isdigit k = true ∧ Py.int k = Some x.
Proof.
  unfold existing_ids. rewrite list_elem_of_omap. split.
  - intros ([k p] & Hin%elem_of_map_to_list & Hx). simpl in Hx.
    destruct (Py.isdigit k) eqn:Hk; [|done]. by exists k, p.
  - intros (k & p & Hkp & Hk & Hx). exists (k, p).
    split; [by apply elem_of_map_to_list|]. simpl. by rewrite Hk.
Qed.

Lemma foldl_max_spec l : ∀ x,
  (foldl Z.max x l = x ∨ foldl Z.max x l ∈ l)
  ∧ x ≤ foldl Z.max x l
  ∧ ∀ y, y ∈ l → y ≤ foldl Z.max x l.
Proof.
  induction l as [|z l IH]; intros x; simpl.
  - split; [by left|]. split; [lia|]. by intros ? ?%elem_of_nil.
  - destruct (IH (Z.max x z)) as (Hin & Hle & Hall). split; [|split].
    + destruct Hin as [Hin|Hin]; [|right; by right].
      rewrite Hin. destruct (Z.max_spec x z) as [[_ ->]|[_ ->]];
        [right; left|by left].
    + lia.
    + intros y [->|Hy]%elem_of_cons; [lia|by apply Hall].
Qed.

Lemma max_default0_spec l :
  (l = [] ∧ Py.max_default0 l = 0)
  ∨ (Py.max_default0 l ∈ l ∧ ∀ y, y ∈ l → y ≤ Py.max_default0 l).
Proof.
  destruct l as [|x l]; [by left|]. right. simpl.
  destruct (foldl_max_spec l x) as (Hin & Hle & Hall). split.
  - destruct Hin as [->|?]; [left|by right].
  - intros y [->|Hy]%elem_of_cons; [done|by apply Hall].
Qed.

Lemma existing_ids_nonneg presets x : x ∈ existing_ids presets → 0 ≤ x.
Proof.
  intros (k & p & _ & Hk & Hx)%elem_of_existing_ids.
  by eapply int_isdigit_nonneg.
Qed.

Lemma new_id_positive presets : 1 ≤ Py.max_default0 (existing_ids presets) + 1.
Proof.
  destruct (max_default0_spec (existing_ids presets)) as [[_ ->]|[Hin _]];
    [lia|].
  apply existing_ids_nonneg in Hin. lia.
Qed.

Lemma stored_id_below_new presets id :
  is_Some (presets !! Py.str id) →
  id < Py.max_default0 (existing_ids presets) + 1.
Proof.
  intros [p Hp]. destruct (Z.lt_ge_cases id 0) as [Hneg|Hpos].
  - pose proof (new_id_positive presets). lia.
  - assert (id ∈ existing_ids presets) as Hin.
    { apply elem_of_existing_ids. exists (Py.str id), p.
      split; [done|]. split; [by apply isdigit_str|by apply int_str]. }
    destruct (max_default0_spec (existing_ids presets)) as [[Hnil _]|[_ Hall]].
    + rewrite Hnil in Hin. by apply elem_of_nil in Hin.
    + specialize (Hall id Hin). lia.
Qed.

(** C6: the preset that [get_preset] returns for the id [create_preset]
    gave carries the name, description, system prompt, parameters and
    activity flag that were passed; an omitted flag is stored as true and
    omitted parameters as the empty mapping. *)
Theorem create_then_get_preset now name description system_prompt
    is_active parameters d :
  ∃ new_id d' p,
    create_preset now name description system_prompt is_active parameters d
    = (new_id, d')
    ∧ get_preset new_id d' = Some (new_id, p)
    ∧ p_name p = name
    ∧ p_description p = description
    ∧ p_system_prompt p = system_prompt
    ∧ p_is_active p = match is_active with Some b => b | None => true end
    ∧ p_parameters p = match parameters with Some m => m | None => ∅ end.
Proof.
  eexists _, _, _. split; [reflexivity|].
  unfold get_preset, save_presets. simpl. rewrite lookup_insert_eq.
  split; [reflexivity|]. by destruct is_active, parameters.
Qed.

(** C4, as the code has it: on a presets document whose keys are integer
    texts, the id [create_preset] assigns is above every id stored at that
    moment; it is 1 when the
    document is empty and otherwise one more than a stored id, so it is the
    greatest stored id plus one; the new id was not stored before, the
    presets stored under the other ids are as they were, and the keys of the
    document are integer texts again. *)
Theorem create_preset_next_id now name description system_prompt
    is_active parameters d :
  integer_keys d →
  ∃ new_id d',
    create_preset now name description system_prompt is_active parameters d
    = (new_id, d')
    ∧ (∀ id, preset_exists id d → id < new_id)
    ∧ (presets_of d = ∅ → new_id = 1)
    ∧ (presets_of d ≠ ∅ → preset_exists (new_id - 1) d)
    ∧ ¬ preset_exists new_id d
    ∧ preset_exists new_id d'
    ∧ (∀ id, id ≠ new_id → get_preset id d' = get_preset id d)
    ∧ integer_keys d'.
Proof.
  intros Hkeys. eexists _, _. split; [reflexivity|].
  unfold preset_exists, get_preset, integer_keys, presets_of in *.
  set (presets := _load_json (presets_file d)) in *.
  set (new_id := Py.max_default0 (existing_ids presets) + 1).
  assert (∀ id, is_Some (match presets !! Py.str id with
                         | Some p => Some (id, p)
                         | None => None
                         end) → id < new_id) as Hbelow.
  { intros id Hid. apply stored_id_below_new.
    destruct (presets !! Py.str id); [by eexists|by destruct Hid]. }
  split; [exact Hbelow|]. split; [|split; [|split; [|split; [|split]]]].
  - intros Hempty. unfold new_id, existing_ids. by rewrite Hempty.
  - intros Hne.
    destruct (max_default0_spec (existing_ids presets)) as [[Hnil _]|[Hin _]].
    + exfalso. apply Hne, map_empty. intros k.
      destruct (presets !! k) as [p|] eqn:Hk; [|done].
      destruct (Hkeys k) as (n & Hn & ->); [by eexists|].
      assert (n ∈ existing_ids presets) as Hin.
      { apply elem_of_existing_ids. exists (Py.str n), p.
        split; [done|]. split; [by apply isdigit_str|by apply int_str]. }
      rewrite Hnil in Hin. by apply elem_of_nil in Hin.
    + apply elem_of_existing_ids in Hin as (k & p & Hkp & Hk & Hint).
      destruct (Hkeys k) as (n & Hn & ->); [by eexists|].
      rewrite int_str in Hint by done. injection Hint as Hint.
      replace (new_id - 1) with n by (unfold new_id; lia).
      rewrite Hkp. by eexists.
  - intros Hnew. specialize (Hbelow new_id Hnew). lia.
  - simpl. rewrite lookup_insert_eq. by eexists.
  - intros id Hne. simpl. rewrite lookup_insert_ne; [done|].
    intros Heq. by apply str_inj in Heq.
  - intros k. simpl. destruct (decide (k = Py.str new_id)) as [->|Hne].
    + intros _. exists new_id. split; [|done].
      pose proof (new_id_positive presets). unfold new_id. lia.
    + rewrite lookup_insert_ne by done. apply Hkeys.
Qed.

Lemma create_preset_next_id_witness :
  integer_keys disk_3
  ∧ ∃ new_id d',
      create_preset day_20 "Coder" "Writes code" "You write code." None None
                    disk_3 = (new_id, d')
      ∧ (∀ id, preset_exists id disk_3 → id < new_id)
      ∧ (presets_of disk_3 = ∅ → new_id = 1)
      ∧ (presets_of disk_3 ≠ ∅ → preset_exists (new_id - 1) disk_3)
      ∧ ¬ preset_exists new_id disk_3
      ∧ preset_exists new_id d'
      ∧ (∀ id, id ≠ new_id → get_preset id d' = get_preset id disk_3)
      ∧ integer_keys d'.
Proof.
  assert (integer_keys disk_3) as Hkeys.
  { intros k [p Hp].
    change (presets_of disk_3) with ({["1" := preset_1]} : gmap string Preset)
      in Hp.
    apply lookup_singleton_Some in Hp as [<- _].
    exists 1. split; [lia|reflexivity]. }
  split; [exact Hkeys|].
  exact (create_preset_next_id day_20 "Coder" "Writes code" "You write code."
           None None disk_3 Hkeys).
Defined.

(** The code at the sample: the second preset gets the id 2. *)
Lemma create_preset_sample :
  (create_preset day_20 "Coder" "Writes code" "You write code." None None
                 disk_3).1 = 2.
Proof. reflexivity. Qed.

(** C4 as stated fails: the ids are not assigned monotonically.  With the
    preset 1 stored, a creation is given the id 2; once the preset 2 is
    deleted, the next creation is given the id 2 again. *)
Lemma preset_id_assigned_again : ¬ assigned_monotonically disk_3.
Proof.
  intros Hmono.
  specialize (Hmono [Create day_20 "Coder" "Writes code" "You write code.";
                     Delete 2;
                     Create day_21 "Poet" "Writes verse" "You write verse."]).
  apply StronglySorted_inv in Hmono as [_ Hlt].
  apply Forall_inv in Hlt. vm_compute in Hlt. discriminate.
Qed.

(** The ids of that history. *)
Lemma assigned_ids_sample :
  assigned_ids [Create day_20 "Coder" "Writes code" "You write code.";
                Delete 2;
                Create day_21 "Poet" "Writes verse" "You write verse."]
               disk_3 = [2; 2].
Proof. reflexivity. Qed.

Lemma elem_of_insert_by {A} (key : A → string) (x y : A) l :
  y ∈ Py.insert_by key x l ↔ y = x ∨ y ∈ l.
Proof.
  induction l as [|z l IH]; simpl.
  - rewrite list_elem_of_singleton, elem_of_nil. tauto.
  - destruct (String.ltb (key z) (key x)).
    + rewrite !elem_of_cons, IH. tauto.
    + rewrite !elem_of_cons. tauto.
Qed.

Lemma elem_of_sort_by {A} (key : A → string) (y : A) l :
  y ∈ Py.sort_by key l ↔ y ∈ l.
Proof.
  unfold Py.sort_by. induction l as [|x l IH]; simpl; [done|].
  by rewrite elem_of_insert_by, elem_of_cons, IH.
Qed.

Lemma get_presets_integer_keys d :
  integer_keys d →
  ∃ presets,
    get_presets d = Some presets
    ∧ ∀ k p, presets_of d !! k = Some p → ∃ id, (id, p) ∈ presets.
Proof.
  intros Hkeys. unfold get_presets.
  change (_load_json (presets_file d)) with (presets_of d).
  set (f := λ kv : string * Preset, id ← Py.int kv.1; Some (id, kv.2)).
  assert (∀ k p, presets_of d !! k = Some p →
                 ∃ n, f (k, p) = Some (n, p)) as Hf.
  { intros k p Hkp. destruct (Hkeys k) as (n & Hn & ->); [by eexists|].
    exists n. unfold f. simpl. by rewrite int_str. }
  destruct (mapM f (map_to_list (presets_of d))) as [preset_list|] eqn:HmapM.
  - eexists. split; [reflexivity|]. intros k p Hkp.
    apply mapM_Some_1 in HmapM.
    assert ((k, p) ∈ map_to_list (presets_of d)) as Hin
      by (by apply elem_of_map_to_list).
    apply list_elem_of_lookup in Hin as [i Hi].
    destruct (Forall2_lookup_l _ _ _ _ _ HmapM Hi) as (y & Hy & Hfy).
    destruct (Hf k p Hkp) as [n Hn]. rewrite Hn in Hfy. injection Hfy as <-.
    exists n. apply elem_of_sort_by. by eapply list_elem_of_lookup_2.
  - exfalso. assert (is_Some (mapM f (map_to_list (presets_of d)))) as [? Hsome];
      [|by rewrite Hsome in HmapM].
    apply mapM_is_Some_2, Forall_forall. intros [k p] Hin%elem_of_map_to_list.
    destruct (Hf k p Hin) as [n Hn]. by eexists.
Qed.

(** C3: on a presets document whose keys are integer texts, a creation
    request whose name is the name of a stored preset is answered with the
    status 400 and the documents are as they were before the request. *)
Theorem create_preset_same_name_rejected now preset_data d k p :
  integer_keys d →
  presets_of d !! k = Some p →
  p_name p = PresetAPI.name preset_data →
  PresetAPI.create_preset now preset_data d
  = (inl (PresetAPI.mk_http_exception 400), d).
Proof.
  intros Hkeys Hkp Hname. unfold PresetAPI.create_preset.
  destruct (get_presets_integer_keys d Hkeys) as (presets & -> & Hall).
  destruct (Hall k p Hkp) as [id Hid].
  assert (existsb (λ preset : Z * Preset,
                     String.eqb (p_name preset.2) (PresetAPI.name preset_data))
                  presets = true) as ->; [|done].
  apply existsb_exists. exists (id, p). split; [by apply list_elem_of_In|].
  simpl. by apply String.eqb_eq.
Qed.

Lemma create_preset_same_name_rejected_witness :
  integer_keys disk_3
  ∧ presets_of disk_3 !! "1" = Some preset_1
  ∧ p_name preset_1 = PresetAPI.name request_1
  ∧ PresetAPI.create_preset day_20 request_1 disk_3
    = (inl (PresetAPI.mk_http_exception 400), disk_3).
Proof.
  assert (integer_keys disk_3) as Hkeys.
  { intros k [p Hp].
    change (presets_of disk_3) with ({["1" := preset_1]} : gmap string Preset)
      in Hp.
    apply lookup_singleton_Some in Hp as [<- _].
    exists 1. split; [lia|reflexivity]. }
  split; [exact Hkeys|]. split; [reflexivity|]. split; [reflexivity|].
  exact (create_preset_same_name_rejected day_20 request_1 disk_3 "1" preset_1
           Hkeys eq_refl eq_refl).
Defined.

(** The keys stay integer texts from the first start of the store on. *)
Lemma integer_keys_init d :
  presets_file d = None → integer_keys (_init_storage_files d).
Proof.
  intros Hnone k. unfold presets_of, _init_storage_files. simpl.
  rewrite Hnone. simpl. rewrite lookup_empty. by intros [? ?].
Qed.

Lemma integer_keys_delete_preset preset_id d :
  integer_keys d → integer_keys (delete_preset preset_id d).2.
Proof.
  intros Hkeys. unfold delete_preset.
  destruct (_load_json (presets_file d) !! Py.str preset_id) eqn:Hp; [|done].
  intros k. unfold presets_of. simpl.
  destruct (decide (k = Py.str preset_id)) as [->|Hne].
  - rewrite lookup_delete_eq. by intros [? ?].
  - rewrite lookup_delete_ne by done. apply Hkeys.
Qed.

(** ** The stored invariants are kept by the operations *)

Lemma all_sequential_init d :
  messages_file d = None → all_sequential (_init_storage_files d).
Proof.
  intros Hnone cid l. unfold messages_doc, _init_storage_files. simpl.
  rewrite Hnone. simpl. by rewrite lookup_empty.
Qed.

Lemma all_sequential_messages_of cid d :
  all_sequential d → sequential_ids (messages_of cid d).
Proof.
  intros Hall. unfold messages_of.
  destruct (messages_doc d !! cid) as [l|] eqn:Hl; [by eapply Hall|done].
Qed.

Lemma all_sequential_create_conversation now new_id title preset_id d :
  all_sequential d →
  all_sequential (create_conversation now new_id title preset_id d).2.
Proof. done. Qed.

Lemma all_sequential_add_message now cid sender content d :
  all_sequential d → all_sequential (add_message now cid sender content d).2.
Proof.
  intros Hall.
  destruct (conversations_of d !! cid) as [conv|] eqn:Hconv.
  - rewrite (add_message_found _ _ _ _ _ conv Hconv). intros k l.
    unfold messages_doc at 1. simpl.
    destruct (decide (k = cid)) as [->|Hne].
    + rewrite lookup_insert_eq. intros [= <-].
      by apply sequential_ids_snoc, all_sequential_messages_of.
    + rewrite lookup_insert_ne by done. apply Hall.
  - unfold add_message. fold (conversations_of d). by rewrite Hconv.
Qed.

Lemma all_sequential_delete_conversation cid d :
  all_sequential d → all_sequential (delete_conversation cid d).2.
Proof.
  intros Hall. unfold delete_conversation.
  destruct (_load_json (conversations_file d) !! cid); [|done].
  destruct (_load_json (messages_file d) !! cid) as [l0|] eqn:Hl0; [|done].
  intros k l. unfold messages_doc. simpl.
  destruct (decide (k = cid)) as [->|Hne].
  - by rewrite lookup_delete_eq.
  - rewrite lookup_delete_ne by done. apply Hall.
Qed.

Lemma all_sequential_cleanup now days d n d' :
  all_sequential d →
  cleanup_old_conversations now days d = Some (n, d') →
  all_sequential d'.
Proof.
  intros Hall Hclean.
  destruct (cutoff_date now days) as [cutoff|] eqn:Hcut.
  - destruct (cleanup_messages_lookup now days d cutoff Hcut)
      as (d0 & Hd0 & Hlook).
    rewrite Hd0 in Hclean. injection Hclean as _ <-.
    intros cid l Hl. destruct (Hlook cid) as [Hgone|Hsame].
    + by rewrite Hgone in Hl.
    + rewrite Hsame in Hl. by eapply Hall.
  - unfold cleanup_old_conversations in Hclean. by rewrite Hcut in Hclean.
Qed.

(** A connect that succeeds registers the channel last in its group. *)
Lemma group_of_connect websocket cid reg reg' :
  connect true websocket cid reg = Some reg' →
  group_of cid reg' = group_of cid reg ++ [websocket].
Proof.
  unfold connect, group_of. intros [= <-]. rewrite lookup_insert_eq. simpl.
  destruct (reg !! cid) as [group|] eqn:Hgroup; [by rewrite Hgroup|].
  by rewrite lookup_insert_eq.
Qed.

(** * Further properties of the code *)

(** ** Sorting and slicing *)

Lemma leb_refl a : String.leb a a = true.
Proof. apply Is_true_true. change (String.le a a). done. Qed.

Lemma insert_by_perm {A} (key : A → string) x l :
  Py.insert_by key x l ≡ₚ x :: l.
Proof.
  induction l as [|y l IH]; simpl; [done|].
  destruct (String.ltb (key y) (key x)); [|done].
  rewrite IH. apply Permutation_swap.
Qed.

Lemma sort_by_perm {A} (key : A → string) l : Py.sort_by key l ≡ₚ l.
Proof.
  unfold Py.sort_by. induction l as [|x l IH]; simpl; [done|].
  by rewrite insert_by_perm, IH.
Qed.

Lemma insert_by_sorted {A} (key : A → string) x l :
  StronglySorted (λ a b, String.leb (key a) (key b) = true) l →
  StronglySorted (λ a b, String.leb (key a) (key b) = true)
                 (Py.insert_by key x l).
Proof.
  induction l as [|y l IH]; simpl; intros Hl.
  - apply StronglySorted_cons. split; [done|constructor].
  - apply StronglySorted_cons in Hl as [Hy Hl].
    destruct (String.ltb (key y) (key x)) eqn:Hlt.
    + apply StronglySorted_cons. split; [|by apply IH].
      rewrite insert_by_perm. constructor; [by apply ltb_true_leb|done].
    + apply ltb_false_leb in Hlt.
      apply StronglySorted_cons. split.
      * constructor; [done|]. eapply Forall_impl; [exact Hy|].
        intros z Hz. simpl in Hz. by eapply leb_trans.
      * by apply StronglySorted_cons.
Qed.

Lemma sort_by_sorted {A} (key : A → string) l :
  StronglySorted (λ a b, String.leb (key a) (key b) = true) (Py.sort_by key l).
Proof.
  unfold Py.sort_by. induction l as [|x l IH]; simpl; [constructor|].
  by apply insert_by_sorted.
Qed.

Lemma sort_by_of_sorted {A} (key : A → string) l :
  StronglySorted (λ a b, String.leb (key a) (key b) = true) l →
  Py.sort_by key l = l.
Proof.
  unfold Py.sort_by. induction l as [|x l IH]; simpl; [done|].
  intros [Hx Hl]%StronglySorted_cons. rewrite IH by done.
  destruct l as [|y l]; [done|]. simpl.
  apply Forall_cons in Hx as [Hxy _]. apply ltb_false_leb in Hxy.
  by rewrite Hxy.
Qed.

Lemma insert_desc_perm {A} (key : A → string) x l :
  Py.insert_desc key x l ≡ₚ x :: l.
Proof.
  induction l as [|y l IH]; simpl; [done|].
  destruct (String.ltb (key x) (key y)); [|done].
  rewrite IH. apply Permutation_swap.
Qed.

Lemma sort_by_desc_perm {A} (key : A → string) l : Py.sort_by_desc key l ≡ₚ l.
Proof.
  unfold Py.sort_by_desc. induction l as [|x l IH]; simpl; [done|].
  by rewrite insert_desc_perm, IH.
Qed.

Lemma insert_desc_sorted {A} (key : A → string) x l :
  StronglySorted (λ a b, String.leb (key b) (key a) = true) l →
  StronglySorted (λ a b, String.leb (key b) (key a) = true)
                 (Py.insert_desc key x l).
Proof.
  induction l as [|y l IH]; simpl; intros Hl.
  - apply StronglySorted_cons. split; [done|constructor].
  - apply StronglySorted_cons in Hl as [Hy Hl].
    destruct (String.ltb (key x) (key y)) eqn:Hlt.
    + apply StronglySorted_cons. split; [|by apply IH].
      rewrite insert_desc_perm. constructor; [by apply ltb_true_leb|done].
    + apply ltb_false_leb in Hlt.
      apply StronglySorted_cons. split.
      * constructor; [done|]. eapply Forall_impl; [exact Hy|].
        intros z Hz. simpl in Hz. by eapply leb_trans.
      * by apply StronglySorted_cons.
Qed.

Lemma sort_by_desc_sorted {A} (key : A → string) l :
  StronglySorted (λ a b, String.leb (key b) (key a) = true)
                 (Py.sort_by_desc key l).
Proof.
  unfold Py.sort_by_desc. induction l as [|x l IH]; simpl; [constructor|].
  by apply insert_desc_sorted.
Qed.

Lemma slice_nonneg {A} (start n : Z) (l : list A) :
  0 ≤ start → 0 ≤ n →
  Py.slice start (start + n) l = take (Z.to_nat n) (drop (Z.to_nat start) l).
Proof.
  intros Hstart Hn. unfold Py.slice, Py.slice_bound.
  destruct (Z.ltb_spec start 0); [lia|].
  destruct (Z.ltb_spec (start + n) 0); [lia|].
  set (len := Z.of_nat (length l)).
  destruct (Z.le_gt_cases start len) as [Hle|Hgt].
  - rewrite (Z.min_l start len) by done.
    destruct (Z.le_gt_cases (start + n) len) as [Hle'|Hgt'].
    + rewrite Z.min_l by done. f_equal. lia.
    + rewrite Z.min_r by lia.
      rewrite !take_ge; [done| |]; rewrite length_drop; unfold len in *; lia.
  - rewrite !Z.min_r by lia. rewrite !drop_ge by (unfold len in *; lia).
    by rewrite !take_nil.
Qed.

Lemma sorted_take_drop {A} (R : relation A) n m (l : list A) :
  StronglySorted R l → StronglySorted R (take n (drop m l)).
Proof.
  intros Hl. rewrite <- (take_drop m l) in Hl.
  apply StronglySorted_app_1_r in Hl.
  rewrite <- (take_drop n (drop m l)) in Hl.
  by apply StronglySorted_app_1_l in Hl.
Qed.

(** ** Conversations: create, update, list *)

(** X1: the conversation that [get_conversation] returns right after
    [create_conversation] has the title and the preset that were passed, and
    one clock text as [created_at] and as [updated_at]; the conversations
    under other ids, the messages and the presets are as they were. *)
Theorem create_conversation_then_get now new_id title preset_id d :
  ∃ d',
    create_conversation now new_id title preset_id d = (new_id, d')
    ∧ get_conversation new_id d'
      = Some (new_id, mk_conversation title preset_id
                        (Some (isoformat now)) (Some (isoformat now)))
    ∧ (∀ other, other ≠ new_id →
         get_conversation other d' = get_conversation other d)
    ∧ messages_file d' = messages_file d
    ∧ presets_file d' = presets_file d.
Proof.
  eexists. split; [reflexivity|]. unfold get_conversation. simpl.
  rewrite lookup_insert_eq. split; [done|]. split; [|done].
  intros other Hne. by rewrite lookup_insert_ne.
Qed.

(** X2: [update_conversation] on a stored conversation returns [True],
    stamps [updated_at] with the clock text whatever [data] holds for that
    key, takes the title, preset and [created_at] from [data] where given
    and keeps them otherwise, and touches no other conversation, no message
    and no preset. *)
Theorem update_conversation_restamps now cid data d conv :
  conversations_of d !! cid = Some conv →
  ∃ d' conv',
    update_conversation now cid data d = (true, d')
    ∧ conversations_of d' !! cid = Some conv'
    ∧ c_updated_at conv' = Some (isoformat now)
    ∧ c_title conv' = default (c_title conv) (u_title data)
    ∧ c_preset_id conv' = default (c_preset_id conv) (u_preset_id data)
    ∧ (u_created_at data = None → c_created_at conv' = c_created_at conv)
    ∧ (∀ t, u_created_at data = Some t → c_created_at conv' = Some t)
    ∧ (∀ other, other ≠ cid →
         conversations_of d' !! other = conversations_of d !! other)
    ∧ messages_file d' = messages_file d
    ∧ presets_file d' = presets_file d.
Proof.
  unfold conversations_of, update_conversation. intros ->.
  eexists _, _. split; [reflexivity|]. simpl. rewrite lookup_insert_eq.
  split; [reflexivity|]. simpl. do 3 (split; [done|]).
  split; [by intros ->|]. split; [by intros t ->|]. split; [|done].
  intros other Hne. by rewrite lookup_insert_ne.
Qed.

Lemma update_conversation_restamps_witness :
  conversations_of disk_1 !! "c1" = Some conv_1
  ∧ ∃ d' conv',
      update_conversation next_day "c1" (title_only "Renamed") disk_1
      = (true, d')
      ∧ conversations_of d' !! "c1" = Some conv'
      ∧ c_updated_at conv' = Some (isoformat next_day)
      ∧ c_title conv' = default (c_title conv_1) (u_title (title_only "Renamed"))
      ∧ c_preset_id conv'
        = default (c_preset_id conv_1) (u_preset_id (title_only "Renamed"))
      ∧ (u_created_at (title_only "Renamed") = None →
         c_created_at conv' = c_created_at conv_1)
      ∧ (∀ t, u_created_at (title_only "Renamed") = Some t →
           c_created_at conv' = Some t)
      ∧ (∀ other, other ≠ "c1" →
           conversations_of d' !! other = conversations_of disk_1 !! other)
      ∧ messages_file d' = messages_file disk_1
      ∧ presets_file d' = presets_file disk_1.
Proof.
  split; [reflexivity|].
  apply (update_conversation_restamps next_day "c1" (title_only "Renamed")
           disk_1 conv_1).
  reflexivity.
Defined.

(** The code at a sample: a [created_at] given in [data] replaces the
    stored one, and [updated_at] is the clock text. *)
Lemma update_conversation_sample :
  (update_conversation next_day "c1"
     (mk_conversation_update None None (Some "2020-01-01T00:00:00") None)
     disk_1).2
  = mk_disk (Some {["c1" := mk_conversation "T" (Some 1)
                              (Some "2020-01-01T00:00:00")
                              (Some "2024-01-02T12:00:00.700000")]})
            (Some {["c1" := [msg_1]]}) (Some ∅).
Proof. reflexivity. Qed.

Lemma get_conversations_nonneg limit offset d :
  0 ≤ offset → 0 ≤ limit →
  get_conversations limit offset d
  = take (Z.to_nat limit)
         (drop (Z.to_nat offset)
               (Py.sort_by_desc conversation_key
                                (map_to_list (conversations_of d)))).
Proof. intros. unfold get_conversations. by rewrite slice_nonneg. Qed.

(** X3: whatever [limit] and [offset] are, [get_conversations] returns
    stored conversations under their ids, the latest update first; and no
    more than [limit] of them when [limit] is not negative. *)
Theorem get_conversations_latest_first limit offset d :
  StronglySorted latest_first (get_conversations limit offset d)
  ∧ (∀ cid conv, (cid, conv) ∈ get_conversations limit offset d →
                 conversations_of d !! cid = Some conv)
  ∧ (0 ≤ limit →
     Z.of_nat (length (get_conversations limit offset d)) ≤ limit).
Proof.
  unfold get_conversations, Py.slice.
  change (_load_json (conversations_file d)) with (conversations_of d).
  set (sorted := Py.sort_by_desc conversation_key
                   (map_to_list (conversations_of d))).
  split; [|split].
  - apply sorted_take_drop. apply (sort_by_desc_sorted conversation_key).
  - intros cid conv Hin.
    apply elem_of_map_to_list. rewrite <- (sort_by_desc_perm conversation_key).
    eapply elem_of_sublist; [|apply sublist_drop].
    eapply elem_of_sublist; [exact Hin|apply sublist_take].
  - intros Hlimit. rewrite length_take, length_drop. unfold Py.slice_bound.
    set (len := Z.of_nat (length sorted)).
    assert (0 ≤ len) by (unfold len; lia).
    destruct (Z.ltb_spec offset 0), (Z.ltb_spec (offset + limit) 0); lia.
Qed.

(** X4: for bounds that are not negative, the page of [a] conversations at
    [offset] followed by the page of [b] conversations at [offset + a] is
    the page of [a + b] conversations at [offset]: pages neither overlap
    nor skip. *)
Theorem get_conversations_pages a b offset d :
  0 ≤ offset → 0 ≤ a → 0 ≤ b →
  get_conversations a offset d ++ get_conversations b (offset + a) d
  = get_conversations (a + b) offset d.
Proof.
  intros Ho Ha Hb. rewrite !get_conversations_nonneg by lia.
  rewrite Z2Nat.inj_add, <- drop_drop by lia.
  rewrite take_take_drop. f_equal. lia.
Qed.

Lemma get_conversations_pages_witness :
  0 ≤ 0 ∧ 0 ≤ 1 ∧ 0 ≤ 1
  ∧ get_conversations 1 0 disk_1 ++ get_conversations 1 (0 + 1) disk_1
    = get_conversations (1 + 1) 0 disk_1.
Proof.
  assert (0 ≤ 0) as H0 by lia. assert (0 ≤ 1) as H1 by lia.
  split; [exact H0|]. split; [exact H1|]. split; [exact H1|].
  exact (get_conversations_pages 1 1 0 disk_1 H0 H1 H1).
Defined.

(** X5: with [offset] 0 and a [limit] that is at least the number of stored
    conversations, [get_conversations] returns every stored conversation
    exactly once. *)
Theorem get_conversations_all limit d :
  Z.of_nat (size (conversations_of d)) ≤ limit →
  get_conversations limit 0 d ≡ₚ map_to_list (conversations_of d).
Proof.
  intros Hsize. rewrite get_conversations_nonneg by lia.
  change (Z.to_nat 0) with 0%nat. rewrite drop_0.
  rewrite take_ge; [apply sort_by_desc_perm|].
  rewrite (Permutation_length (sort_by_desc_perm conversation_key _)).
  rewrite length_map_to_list. lia.
Qed.

Lemma get_conversations_all_witness :
  Z.of_nat (size (conversations_of disk_1)) ≤ 50
  ∧ get_conversations 50 0 disk_1 ≡ₚ map_to_list (conversations_of disk_1).
Proof.
  assert (Z.of_nat (size (conversations_of disk_1)) ≤ 50) as H
    by (vm_compute; discriminate).
  split; [exact H|]. exact (get_conversations_all 50 disk_1 H).
Defined.

(** ** Messages: listing *)

Lemma get_messages_all cid d :
  get_messages cid None d = Py.sort_by message_key (messages_of cid d).
Proof.
  unfold get_messages, messages_of, messages_doc.
  by destruct (_load_json (messages_file d) !! cid).
Qed.

Lemma get_messages_perm cid d : get_messages cid None d ≡ₚ messages_of cid d.
Proof. rewrite get_messages_all. apply sort_by_perm. Qed.

(** X6: without a limit [get_messages] returns every stored message of the
    conversation exactly once, the earliest [created_at] first; for an id
    with no stored list that is the empty list. *)
Theorem get_messages_earliest_first cid d :
  get_messages cid None d ≡ₚ messages_of cid d
  ∧ StronglySorted earliest_first (get_messages cid None d).
Proof.
  rewrite get_messages_all. split.
  - apply sort_by_perm.
  - apply (sort_by_sorted message_key).
Qed.

(** X7: a limit of 0 is taken for no limit and gives every message; a
    positive limit [n] gives the last [n] messages of the full listing, or
    all of them when there are fewer. *)
Theorem get_messages_limit cid n d :
  0 ≤ n →
  get_messages cid (Some n) d
  = (if decide (n = 0) then get_messages cid None d
     else drop (length (get_messages cid None d) - Z.to_nat n)
               (get_messages cid None d))
  ∧ (0 < n →
     length (get_messages cid (Some n) d)
     = Nat.min (Z.to_nat n) (length (messages_of cid d))).
Proof.
  intros Hn.
  assert (get_messages cid (Some n) d
          = if decide (n = 0) then get_messages cid None d
            else drop (length (get_messages cid None d) - Z.to_nat n)
                      (get_messages cid None d)) as Heq.
  { unfold get_messages. destruct (_load_json (messages_file d) !! cid) as [l|].
    - destruct (Z.eqb_spec n 0) as [->|Hne]; [done|].
      rewrite decide_False by done. unfold Py.slice_from.
      set (sorted := Py.sort_by message_key l).
      destruct (Z.ltb_spec (- n) 0); [|lia]. f_equal. lia.
    - by destruct (decide (n = 0)). }
  split; [exact Heq|]. intros Hpos. rewrite Heq.
  rewrite decide_False by lia. rewrite length_drop.
  rewrite (Permutation_length (get_messages_perm cid d)).
  lia.
Qed.

(** X8: when the stored messages of a conversation are in [created_at]
    order and the clock text at an append is not below any of them,
    [get_messages] after the append is [get_messages] before it followed by
    the new message: messages are listed in the order they were added. *)
Theorem get_messages_append_order now cid sender content d conv :
  conversations_of d !! cid = Some conv →
  StronglySorted earliest_first (messages_of cid d) →
  Forall (λ m, String.leb (message_key m) (isoformat now) = true)
         (messages_of cid d) →
  get_messages cid None (add_message now cid sender content d).2
  = get_messages cid None d
    ++ [mk_message (Z.of_nat (length (messages_of cid d)) + 1) sender content
                   (Some (isoformat now))].
Proof.
  intros Hconv Hsorted Hclock.
  rewrite (add_message_found _ _ _ _ _ conv Hconv). simpl.
  rewrite !get_messages_all.
  assert (∀ l (ms : gmap string (list Message)) cs ps,
            messages_of cid (mk_disk cs (Some (<[cid := l]> ms)) ps) = l) as ->.
  { intros. unfold messages_of, messages_doc. simpl.
    by rewrite lookup_insert_eq. }
  rewrite (sort_by_of_sorted message_key (messages_of cid d)) by done.
  apply sort_by_of_sorted. apply StronglySorted_app. split; [|split].
  - intros m1 m2 Hm1 ->%list_elem_of_singleton.
    rewrite Forall_forall in Hclock. by apply Hclock.
  - done.
  - apply StronglySorted_cons. split; constructor.
Qed.

Lemma get_messages_append_order_witness :
  conversations_of disk_1 !! "c1" = Some conv_1
  ∧ StronglySorted earliest_first (messages_of "c1" disk_1)
  ∧ Forall (λ m, String.leb (message_key m) (isoformat now_0) = true)
           (messages_of "c1" disk_1)
  ∧ get_messages "c1" None (add_message now_0 "c1" "ai" "hello" disk_1).2
    = get_messages "c1" None disk_1
      ++ [mk_message (Z.of_nat (length (messages_of "c1" disk_1)) + 1)
                     "ai" "hello" (Some (isoformat now_0))].
Proof.
  assert (StronglySorted earliest_first (messages_of "c1" disk_1)) as Hs.
  { apply StronglySorted_cons. split; constructor. }
  assert (Forall (λ m, String.leb (message_key m) (isoformat now_0) = true)
                 (messages_of "c1" disk_1)) as Hc.
  { constructor; [reflexivity|constructor]. }
  split; [reflexivity|]. split; [exact Hs|]. split; [exact Hc|].
  exact (get_messages_append_order now_0 "c1" "ai" "hello" disk_1 conv_1
           eq_refl Hs Hc).
Defined.

Lemma get_messages_limit_witness :
  0 ≤ 1
  ∧ get_messages "c1" (Some 1) disk_1
    = (if decide ((1 : Z) = 0) then get_messages "c1" None disk_1
       else drop (length (get_messages "c1" None disk_1) - Z.to_nat 1)
                 (get_messages "c1" None disk_1))
  ∧ (0 < 1 →
     length (get_messages "c1" (Some 1) disk_1)
     = Nat.min (Z.to_nat 1) (length (messages_of "c1" disk_1))).
Proof.
  assert (0 ≤ 1) as H by lia.
  split; [exact H|]. exact (get_messages_limit "c1" 1 disk_1 H).
Defined.

(** ** Deleting twice, sweeping twice *)

(** X9: a second [delete_conversation] of the same id returns [False] and
    writes nothing. *)
Theorem delete_conversation_twice cid d :
  delete_conversation cid (delete_conversation cid d).2
  = (false, (delete_conversation cid d).2).
Proof.
  unfold delete_conversation at 2 3.
  destruct (_load_json (conversations_file d) !! cid) as [conv|] eqn:Hconv.
  - assert (∀ d0, conversations_of d0 !! cid = None →
                  delete_conversation cid d0 = (false, d0)) as Habsent.
    { intros d0. unfold conversations_of, delete_conversation. by intros ->. }
    destruct (_load_json (messages_file d) !! cid); simpl; apply Habsent;
      unfold conversations_of; simpl; by rewrite lookup_delete_eq.
  - simpl. unfold delete_conversation. by rewrite Hconv.
Qed.

(** X10: a second [cleanup_old_conversations] at the same clock reading and
    retention deletes nothing: it returns 0 and the documents are those the
    first sweep left. *)
Theorem cleanup_twice now days d n d' :
  cleanup_old_conversations now days d = Some (n, d') →
  cleanup_old_conversations now days d' = Some (0, d').
Proof.
  unfold cleanup_old_conversations.
  destruct (cutoff_date now days) as [cutoff|]; [|done]. simpl.
  change (_load_json (conversations_file d)) with (conversations_of d).
  change (_load_json (messages_file d)) with (messages_doc d).
  pose proof (delete_step_lookup (collect_old cutoff (conversations_of d))
                (conversations_of d) (messages_doc d)) as Hlook.
  destruct (foldl delete_step (conversations_of d, messages_doc d)
              (collect_old cutoff (conversations_of d)))
    as [conversations' messages'] eqn:Hfold.
  simpl in Hlook. intros [= _ <-]. simpl.
  assert (collect_old cutoff conversations' = []) as ->.
  { apply elem_of_nil_inv. intros cid Hin.
    rewrite collect_old_filter, list_elem_of_fmap in Hin.
    destruct Hin as ([k conv] & -> & [Hold Hk%elem_of_map_to_list]%list_elem_of_filter).
    simpl in *.
    destruct (decide (k ∈ collect_old cutoff (conversations_of d))) as [Hdel|Hkeep].
    - destruct (Hlook k) as [Hgone _]. destruct (Hgone Hdel) as [Hnone _].
      by rewrite Hnone in Hk.
    - destruct (Hlook k) as [_ Hsame]. destruct (Hsame Hkeep) as [Hconv _].
      rewrite Hconv in Hk. apply Hkeep, elem_of_collect_old. by exists conv. }
  done.
Qed.

Lemma cleanup_twice_witness :
  cleanup_old_conversations next_day 0 disk_1
  = Some (1, mk_disk (Some ∅) (Some ∅) (Some ∅))
  ∧ cleanup_old_conversations next_day 0 (mk_disk (Some ∅) (Some ∅) (Some ∅))
    = Some (0, mk_disk (Some ∅) (Some ∅) (Some ∅)).
Proof.
  assert (cleanup_old_conversations next_day 0 disk_1
          = Some (1, mk_disk (Some ∅) (Some ∅) (Some ∅))) as H by reflexivity.
  split; [exact H|]. exact (cleanup_twice next_day 0 disk_1 1 _ H).
Defined.

(** ** Presets: listing, deleting, usage *)

Lemma elem_of_mapM {A B} (f : A → option B) l k y :
  mapM f l = Some k → y ∈ k ↔ ∃ x, x ∈ l ∧ f x = Some y.
Proof.
  intros Hall%mapM_Some_1. split.
  - intros [i Hi]%list_elem_of_lookup.
    destruct (Forall2_lookup_r _ _ _ _ _ Hall Hi) as (x & Hx & Hfx).
    exists x. split; [by eapply list_elem_of_lookup_2|done].
  - intros (x & [i Hi]%list_elem_of_lookup & Hfx).
    destruct (Forall2_lookup_l _ _ _ _ _ Hall Hi) as (y' & Hy' & Hfy').
    rewrite Hfx in Hfy'. injection Hfy' as <-.
    by eapply list_elem_of_lookup_2.
Qed.

Lemma get_presets_unfold d :
  get_presets d
  = Py.sort_by preset_key <$> mapM preset_entry (map_to_list (presets_of d)).
Proof.
  unfold get_presets, presets_of.
  by destruct (mapM _ (map_to_list (_load_json (presets_file d)))).
Qed.

Lemma elem_of_get_presets d presets :
  get_presets d = Some presets →
  ∀ id p, (id, p) ∈ presets
          ↔ ∃ k, presets_of d !! k = Some p ∧ Py.int k = Some id.
Proof.
  rewrite get_presets_unfold.
  destruct (mapM preset_entry (map_to_list (presets_of d))) as [l|] eqn:Hl;
    [|done].
  intros [= <-] id p. rewrite elem_of_sort_by, (elem_of_mapM _ _ _ _ Hl). split.
  - intros ([k p'] & Hin%elem_of_map_to_list & Hentry).
    unfold preset_entry in Hentry. simpl in Hentry.
    destruct (Py.int k) as [n|] eqn:Hk; [|done]. injection Hentry as <- <-.
    by exists k.
  - intros (k & Hkp & Hk). exists (k, p).
    split; [by apply elem_of_map_to_list|].
    unfold preset_entry. simpl. by rewrite Hk.
Qed.

(** What [int] takes and what it refuses, at samples: whitespace around
    the literal, a sign, single underscores between digits; no separator
    character 0x1c..0x1f, no space after the sign, no other underscore. *)
Lemma int_samples :
  Py.int " 7 " = Some 7
  ∧ Py.int (String (ascii_of_nat 9) (String (ascii_of_nat 11) "7")) = Some 7
  ∧ Py.int "-1_0" = Some (-10)
  ∧ Py.int "+07" = Some 7
  ∧ Py.int (String (ascii_of_nat 28) "7") = None
  ∧ Py.int (String "7" (String (ascii_of_nat 31) "")) = None
  ∧ Py.int "+ 7" = None
  ∧ Py.int "1__0" = None
  ∧ Py.int "_1" = None
  ∧ Py.int "1_" = None
  ∧ Py.int "" = None
  ∧ Py.int "v2" = None.
Proof. by repeat split. Qed.



(** The code at the sample: the key ["v2"] makes the listing raise. *)
Lemma get_presets_sample : get_presets disk_4 = None.
Proof. reflexivity. Qed.

(** X12: when [get_presets] returns, it lists each stored preset once,
    under the integer its key denotes, the earliest [created_at] first. *)
Theorem get_presets_lists_all d presets :
  get_presets d = Some presets →
  (∀ id p, (id, p) ∈ presets
           ↔ ∃ k, presets_of d !! k = Some p ∧ Py.int k = Some id)
  ∧ length presets = size (presets_of d)
  ∧ StronglySorted oldest_first presets.
Proof.
  rewrite get_presets_unfold.
  destruct (mapM preset_entry (map_to_list (presets_of d))) as [l|] eqn:Hl;
    [|done].
  intros [= <-]. split; [|split].
  - intros id p. rewrite elem_of_sort_by, (elem_of_mapM _ _ _ _ Hl). split.
    + intros ([k p'] & Hin%elem_of_map_to_list & Hentry).
      unfold preset_entry in Hentry. simpl in Hentry.
      destruct (Py.int k) as [n|] eqn:Hk; [|done]. injection Hentry as <- <-.
      by exists k.
    + intros (k & Hkp & Hk). exists (k, p).
      split; [by apply elem_of_map_to_list|].
      unfold preset_entry. simpl. by rewrite Hk.
  - rewrite (Permutation_length (sort_by_perm preset_key l)).
    apply mapM_Some_1, Forall2_length in Hl.
    by rewrite <- Hl, length_map_to_list.
  - apply (sort_by_sorted preset_key).
Qed.

Lemma get_presets_lists_all_witness :
  get_presets disk_3 = Some [(1, preset_1)]
  ∧ (∀ id p, (id, p) ∈ [(1, preset_1)]
             ↔ ∃ k, presets_of disk_3 !! k = Some p ∧ Py.int k = Some id)
  ∧ length [(1, preset_1)] = size (presets_of disk_3)
  ∧ StronglySorted oldest_first [(1, preset_1)].
Proof.
  split; [reflexivity|].
  apply (get_presets_lists_all disk_3 [(1, preset_1)]). reflexivity.
Defined.

Lemma new_key_fresh presets :
  presets !! Py.str (Py.max_default0 (existing_ids presets) + 1) = None.
Proof.
  destruct (presets !! Py.str (Py.max_default0 (existing_ids presets) + 1))
    as [p|] eqn:Hp; [|done].
  assert (is_Some (presets !! Py.str (Py.max_default0 (existing_ids presets) + 1)))
    as Hsome by (by eexists).
  apply stored_id_below_new in Hsome. lia.
Qed.

(** X13: deleting the preset that [create_preset] has just created
    succeeds and gives back the presets document as it was read before the
    creation; conversations and messages are not touched. *)
Theorem create_then_delete_preset now name description system_prompt
    is_active parameters d :
  ∃ new_id d' d'',
    create_preset now name description system_prompt is_active parameters d
    = (new_id, d')
    ∧ delete_preset new_id d' = (true, d'')
    ∧ presets_of d'' = presets_of d
    ∧ conversations_file d'' = conversations_file d
    ∧ messages_file d'' = messages_file d.
Proof.
  eexists _, _, _. split; [reflexivity|].
  unfold delete_preset, save_presets. simpl. rewrite lookup_insert_eq.
  split; [reflexivity|]. split; [|done].
  unfold presets_of. simpl. rewrite delete_insert_eq.
  apply delete_id, new_key_fresh.
Qed.

(** X14: [delete_preset] of a stored preset succeeds and removes that
    preset only; it does not touch the conversations, so those that refer
    to the deleted preset are still counted by [get_preset_usage], which
    then reports an empty name and an inactive preset. *)
Theorem delete_preset_keeps_references preset_id d p :
  presets_of d !! Py.str preset_id = Some p →
  ∃ d',
    delete_preset preset_id d = (true, d')
    ∧ get_preset preset_id d' = None
    ∧ (∀ other, other ≠ preset_id → get_preset other d' = get_preset other d)
    ∧ conversations_file d' = conversations_file d
    ∧ messages_file d' = messages_file d
    ∧ usage_conversation_count (get_preset_usage preset_id d')
      = usage_conversation_count (get_preset_usage preset_id d)
    ∧ usage_preset_name (get_preset_usage preset_id d') = ""
    ∧ usage_is_active (get_preset_usage preset_id d') = false.
Proof.
  unfold presets_of. intros Hp. unfold delete_preset. rewrite Hp.
  eexists. split; [reflexivity|].
  unfold get_preset_usage, get_preset, save_presets. simpl.
  rewrite lookup_delete_eq. split; [done|]. split; [|done].
  intros other Hne. rewrite lookup_delete_ne; [done|].
  intros Heq. by apply str_inj in Heq.
Qed.

Lemma delete_preset_keeps_references_witness :
  presets_of disk_3 !! Py.str 1 = Some preset_1
  ∧ ∃ d',
      delete_preset 1 disk_3 = (true, d')
      ∧ get_preset 1 d' = None
      ∧ (∀ other, other ≠ 1 → get_preset other d' = get_preset other disk_3)
      ∧ conversations_file d' = conversations_file disk_3
      ∧ messages_file d' = messages_file disk_3
      ∧ usage_conversation_count (get_preset_usage 1 d')
        = usage_conversation_count (get_preset_usage 1 disk_3)
      ∧ usage_preset_name (get_preset_usage 1 d') = ""
      ∧ usage_is_active (get_preset_usage 1 d') = false.
Proof.
  split; [reflexivity|].
  apply (delete_preset_keeps_references 1 disk_3 preset_1). reflexivity.
Defined.

(** X15: the delete route answers 404 for an id that is not stored and
    success otherwise, never 500; either way a following get route on that
    id answers 404. *)
Theorem delete_route_then_get_route preset_id d :
  (PresetAPI.delete_preset preset_id d).1
    ≠ inl (PresetAPI.mk_http_exception 500)
  ∧ ((PresetAPI.delete_preset preset_id d).1
       = inl (PresetAPI.mk_http_exception 404)
     ↔ get_preset preset_id d = None)
  ∧ PresetAPI.get_preset preset_id (PresetAPI.delete_preset preset_id d).2
    = inl (PresetAPI.mk_http_exception 404).
Proof.
  unfold PresetAPI.delete_preset, PresetAPI.get_preset, delete_preset,
    get_preset.
  destruct (_load_json (presets_file d) !! Py.str preset_id) as [p|] eqn:Hp;
    simpl.
  - rewrite lookup_delete_eq. split; [done|]. split; [|done].
    split; discriminate.
  - rewrite Hp. split; [done|]. done.
Qed.

Lemma integer_keys_create_preset now name description system_prompt
    is_active parameters d :
  integer_keys d →
  integer_keys
    (create_preset now name description system_prompt is_active parameters d).2.
Proof.
  intros Hkeys k. unfold presets_of. simpl.
  destruct (decide (k = Py.str (Py.max_default0
                                  (existing_ids (_load_json (presets_file d))) + 1)))
    as [->|Hne].
  - intros _. eexists. split; [|done].
    pose proof (new_id_positive (_load_json (presets_file d))). lia.
  - rewrite lookup_insert_ne by done. apply Hkeys.
Qed.

Lemma name_taken_rejected now preset_data d k p :
  integer_keys d →
  presets_of d !! k = Some p →
  p_name p = PresetAPI.name preset_data →
  PresetAPI.create_preset now preset_data d
  = (inl (PresetAPI.mk_http_exception 400), d).
Proof.
  intros Hkeys Hkp Hname. unfold PresetAPI.create_preset.
  destruct (get_presets_integer_keys d Hkeys) as (presets & -> & Hall).
  destruct (Hall k p Hkp) as [id Hid].
  assert (existsb (λ preset : Z * Preset,
                     String.eqb (p_name preset.2) (PresetAPI.name preset_data))
                  presets = true) as ->; [|done].
  apply existsb_exists. exists (id, p). split; [by apply list_elem_of_In|].
  simpl. by apply String.eqb_eq.
Qed.

(** X16: on a presets document whose keys are integer texts and that holds
    no preset of the requested name, the create route stores the preset and
    answers with its id, the requested name, prompt and flag, the
    description or the empty text when there is none, and the parameters or
    the empty mapping when there are none; the same request sent again is
    answered with 400 and writes nothing. *)
Theorem create_route_accepts_new_name now now' preset_data d :
  integer_keys d →
  (∀ k p, presets_of d !! k = Some p → p_name p ≠ PresetAPI.name preset_data) →
  ∃ r d',
    PresetAPI.create_preset now preset_data d = (inr r, d')
    ∧ PresetAPI.r_id r = Py.max_default0 (existing_ids (presets_of d)) + 1
    ∧ PresetAPI.r_name r = PresetAPI.name preset_data
    ∧ PresetAPI.r_description r
      = Some (default "" (PresetAPI.description preset_data))
    ∧ PresetAPI.r_system_prompt r = PresetAPI.system_prompt preset_data
    ∧ PresetAPI.r_parameters r
      = Some (default ∅ (PresetAPI.parameters preset_data))
    ∧ PresetAPI.r_is_active r = PresetAPI.is_active preset_data
    ∧ PresetAPI.get_preset (PresetAPI.r_id r) d' = inr r
    ∧ PresetAPI.create_preset now' preset_data d'
      = (inl (PresetAPI.mk_http_exception 400), d').
Proof.
  intros Hkeys Hfresh.
  pose proof (integer_keys_create_preset now (PresetAPI.name preset_data)
                (PresetAPI.or_empty_string (PresetAPI.description preset_data))
                (PresetAPI.system_prompt preset_data)
                (Some (PresetAPI.is_active preset_data))
                (Some (PresetAPI.or_empty_dict (PresetAPI.parameters preset_data)))
                d Hkeys) as Hkeys'.
  unfold PresetAPI.create_preset at 1.
  destruct (get_presets_integer_keys d Hkeys) as (presets & Hget & _).
  rewrite Hget.
  assert (existsb (λ preset : Z * Preset,
                     String.eqb (p_name preset.2) (PresetAPI.name preset_data))
                  presets = false) as ->.
  { apply not_true_is_false. intros ([id p] & Hin & Hname)%existsb_exists.
    apply list_elem_of_In in Hin. simpl in Hname. apply String.eqb_eq in Hname.
    destruct (elem_of_get_presets d presets Hget id p) as [Hstored _].
    destruct (Hstored Hin) as (k & Hk & _). by eapply Hfresh. }
  set (created := create_preset now (PresetAPI.name preset_data)
                    (PresetAPI.or_empty_string (PresetAPI.description preset_data))
                    (PresetAPI.system_prompt preset_data)
                    (Some (PresetAPI.is_active preset_data))
                    (Some (PresetAPI.or_empty_dict (PresetAPI.parameters preset_data)))
                    d) in *.
  assert (get_preset created.1 created.2
          = Some (created.1,
                  mk_preset (PresetAPI.name preset_data)
                    (PresetAPI.or_empty_string (PresetAPI.description preset_data))
                    (PresetAPI.system_prompt preset_data)
                    (PresetAPI.is_active preset_data)
                    (PresetAPI.or_empty_dict (PresetAPI.parameters preset_data))
                    (Some (isoformat now)) (Some (isoformat now)))) as Hstored.
  { unfold created, get_preset, create_preset, save_presets. simpl.
    by rewrite lookup_insert_eq. }
  destruct created as [new_id d'] eqn:Hcreated. simpl in Hstored, Hkeys'.
  rewrite Hstored. eexists _, _. split; [reflexivity|].
  split; [by injection Hcreated as <- _|].
  do 5 (split; [reflexivity|]). split.
  - unfold PresetAPI.get_preset. simpl. by rewrite Hstored.
  - unfold get_preset in Hstored.
    destruct (_load_json (presets_file d') !! Py.str new_id) as [p|] eqn:Hp;
      [|done].
    injection Hstored as Hp'. subst p.
    by eapply (name_taken_rejected now' preset_data d' (Py.str new_id)).
Qed.

Lemma create_route_accepts_new_name_witness :
  integer_keys disk_3
  ∧ (∀ k p, presets_of disk_3 !! k = Some p →
            p_name p ≠ PresetAPI.name request_2)
  ∧ ∃ r d',
      PresetAPI.create_preset day_20 request_2 disk_3 = (inr r, d')
      ∧ PresetAPI.r_id r
        = Py.max_default0 (existing_ids (presets_of disk_3)) + 1
      ∧ PresetAPI.r_name r = PresetAPI.name request_2
      ∧ PresetAPI.r_description r
        = Some (default "" (PresetAPI.description request_2))
      ∧ PresetAPI.r_system_prompt r = PresetAPI.system_prompt request_2
      ∧ PresetAPI.r_parameters r
        = Some (default ∅ (PresetAPI.parameters request_2))
      ∧ PresetAPI.r_is_active r = PresetAPI.is_active request_2
      ∧ PresetAPI.get_preset (PresetAPI.r_id r) d' = inr r
      ∧ PresetAPI.create_preset day_21 request_2 d'
        = (inl (PresetAPI.mk_http_exception 400), d').
Proof.
  assert (integer_keys disk_3) as Hkeys.
  { intros k [p Hp].
    change (presets_of disk_3) with ({["1" := preset_1]} : gmap string Preset)
      in Hp.
    apply lookup_singleton_Some in Hp as [<- _].
    exists 1. split; [lia|reflexivity]. }
  assert (∀ k p, presets_of disk_3 !! k = Some p →
                 p_name p ≠ PresetAPI.name request_2) as Hfresh.
  { intros k p Hp.
    change (presets_of disk_3) with ({["1" := preset_1]} : gmap string Preset)
      in Hp.
    apply lookup_singleton_Some in Hp as [_ <-]. discriminate. }
  split; [exact Hkeys|]. split; [exact Hfresh|].
  exact (create_route_accepts_new_name day_20 day_21 request_2 disk_3
           Hkeys Hfresh).
Defined.

(** ** The cleanup service and the listing route *)

(** X17: for a number of days beyond what [timedelta] takes, the storage
    sweep raises, and the cleanup service answers 0 and leaves the disk as
    it was. *)
Theorem cleanup_service_out_of_range settings now days d :
  999999999 < days ∨ days < -999999999 →
  cleanup_old_conversations now days d = None
  ∧ HistoryCleanup.cleanup_old_conversations settings now (Some days) d = (0, d).
Proof.
  intros Hdays.
  assert (cleanup_old_conversations now days d = None) as Hnone.
  { unfold cleanup_old_conversations, cutoff_date, sub_days.
    destruct (Z.ltb_spec days (-999999999)), (Z.ltb_spec 999999999 days);
      simpl; try done; lia. }
  split; [done|]. unfold HistoryCleanup.cleanup_old_conversations.
  by rewrite Hnone.
Qed.

Lemma cleanup_service_out_of_range_witness :
  (999999999 < 1000000000 ∨ 1000000000 < -999999999)
  ∧ cleanup_old_conversations now_0 1000000000 disk_1 = None
  ∧ HistoryCleanup.cleanup_old_conversations settings_1 now_0
      (Some 1000000000) disk_1 = (0, disk_1).
Proof.
  assert (999999999 < 1000000000 ∨ 1000000000 < -999999999) as H
    by (left; lia).
  split; [exact H|].
  exact (cleanup_service_out_of_range settings_1 now_0 1000000000 disk_1 H).
Defined.

(** X18: the total that the listing route reports is the number of stored
    conversations only up to 50: it is the length of the default page, so
    it is never above 50. *)
Theorem listing_route_total limit offset d page :
  ConversationAPI.get_conversations limit offset d = inr page →
  ConversationAPI.pg_total page
  = Z.min 50 (Z.of_nat (size (conversations_of d)))
  ∧ ConversationAPI.pg_limit page = limit
  ∧ ConversationAPI.pg_offset page = offset.
Proof.
  unfold ConversationAPI.get_conversations.
  destruct (mapM ConversationAPI.item_of (get_conversations limit offset d));
    [|done].
  intros [= <-]. simpl. split; [|done].
  rewrite get_conversations_nonneg by lia.
  change (Z.to_nat 0) with 0%nat. rewrite drop_0, length_take.
  rewrite (Permutation_length (sort_by_desc_perm conversation_key _)).
  rewrite length_map_to_list. lia.
Qed.

Lemma listing_route_total_witness :
  ConversationAPI.get_conversations 10 0 disk_1
  = inr (ConversationAPI.mk_conversations_page
           [ConversationAPI.mk_conversation_item "c1" "T"
              "2024-01-01T12:00:00.500000" "2024-01-01T12:00:00.500000"]
           1 10 0)
  ∧ ConversationAPI.pg_total
      (ConversationAPI.mk_conversations_page
         [ConversationAPI.mk_conversation_item "c1" "T"
            "2024-01-01T12:00:00.500000" "2024-01-01T12:00:00.500000"]
         1 10 0)
    = Z.min 50 (Z.of_nat (size (conversations_of disk_1)))
  ∧ ConversationAPI.pg_limit
      (ConversationAPI.mk_conversations_page
         [ConversationAPI.mk_conversation_item "c1" "T"
            "2024-01-01T12:00:00.500000" "2024-01-01T12:00:00.500000"]
         1 10 0) = 10
  ∧ ConversationAPI.pg_offset
      (ConversationAPI.mk_conversations_page
         [ConversationAPI.mk_conversation_item "c1" "T"
            "2024-01-01T12:00:00.500000" "2024-01-01T12:00:00.500000"]
         1 10 0) = 0.
Proof.
  split; [reflexivity|].
  apply (listing_route_total 10 0 disk_1). reflexivity.
Defined.

(** ** Connection registry: joins, leaves and passes *)

Lemma count_of_id cid reg :
  cid ≠ "" →
  get_active_connections_count (Some cid) reg
  = Z.of_nat (length (group_of cid reg)).
Proof.
  intros Hcid. unfold get_active_connections_count.
  by destruct (String.eqb_spec cid "").
Qed.

Lemma lookup_of_group cid reg :
  no_empty_group reg → group_of cid reg = [] → reg !! cid = None.
Proof.
  unfold group_of. intros Hreg Hgroup.
  destruct (reg !! cid) as [g|] eqn:Hg; [|done].
  simpl in Hgroup. subst g. by destruct (Hreg cid [] Hg).
Qed.

Lemma lookup_of_group_cons cid reg c g :
  group_of cid reg = c :: g → reg !! cid = Some (c :: g).
Proof.
  unfold group_of. destruct (reg !! cid) as [g'|]; simpl; [|done].
  by intros ->.
Qed.

(** X19: in a registry without empty groups, a join of a channel that is
    not in the group followed by its leave gives the registry back as it
    was, the group entry included. *)
Theorem connect_then_disconnect websocket cid reg :
  no_empty_group reg →
  websocket ∉ group_of cid reg →
  ∃ reg',
    connect true websocket cid reg = Some reg'
    ∧ disconnect websocket cid reg' = reg.
Proof.
  intros Hreg Hnew. eexists. split; [reflexivity|].
  unfold disconnect. rewrite lookup_insert_eq.
  assert (default [] ((match reg !! cid with
                       | Some _ => reg
                       | None => <[cid := []]> reg
                       end) !! cid) = group_of cid reg) as ->.
  { unfold group_of. destruct (reg !! cid) as [g|] eqn:Hg; [by rewrite Hg|].
    by rewrite lookup_insert_eq. }
  rewrite decide_True by (apply elem_of_app; right; by left).
  rewrite remove_first_app by done. rewrite app_nil_r.
  destruct (group_of cid reg) as [|c g] eqn:Hgroup.
  - rewrite delete_insert_eq.
    pose proof (lookup_of_group cid reg Hreg Hgroup) as Hnone.
    rewrite Hnone. rewrite delete_insert_eq. by apply delete_id.
  - pose proof (lookup_of_group_cons cid reg c g Hgroup) as Hsome.
    rewrite Hsome, insert_insert_eq. by apply insert_id.
Qed.

Lemma connect_then_disconnect_witness :
  no_empty_group reg_2
  ∧ (7%nat ∉ group_of "a" reg_2)
  ∧ ∃ reg',
      connect true 7%nat "a" reg_2 = Some reg'
      ∧ disconnect 7%nat "a" reg' = reg_2.
Proof.
  assert (no_empty_group reg_2) as Hreg.
  { intros cid group Hg. unfold reg_2 in Hg.
    apply lookup_singleton_Some in Hg as [_ <-]. discriminate. }
  assert (7%nat ∉ group_of "a" reg_2) as Hnew.
  { intros Hin. apply list_elem_of_In in Hin. simpl in Hin.
    destruct Hin as [H|[H|[H|[]]]]; discriminate. }
  split; [exact Hreg|]. split; [exact Hnew|].
  exact (connect_then_disconnect 7%nat "a" reg_2 Hreg Hnew).
Defined.

(** X20: in a registry without empty groups, the leave of a channel that
    is not registered under the conversation id, or under an id that has no
    group, changes nothing. *)
Theorem disconnect_unregistered websocket cid reg :
  no_empty_group reg →
  websocket ∉ group_of cid reg →
  disconnect websocket cid reg = reg.
Proof.
  intros Hreg Hnew. unfold disconnect, group_of in *.
  destruct (reg !! cid) as [g|] eqn:Hg; [|done]. simpl in Hnew.
  rewrite decide_False by done.
  destruct g as [|c g]; [by destruct (Hreg cid [] Hg)|]. by apply insert_id.
Qed.

Lemma disconnect_unregistered_witness :
  no_empty_group reg_2
  ∧ (7%nat ∉ group_of "a" reg_2)
  ∧ disconnect 7%nat "a" reg_2 = reg_2.
Proof.
  assert (no_empty_group reg_2) as Hreg.
  { intros cid group Hg. unfold reg_2 in Hg.
    apply lookup_singleton_Some in Hg as [_ <-]. discriminate. }
  assert (7%nat ∉ group_of "a" reg_2) as Hnew.
  { intros Hin. apply list_elem_of_In in Hin. simpl in Hin.
    destruct Hin as [H|[H|[H|[]]]]; discriminate. }
  split; [exact Hreg|]. split; [exact Hnew|].
  exact (disconnect_unregistered 7%nat "a" reg_2 Hreg Hnew).
Defined.

(** X21: a join whose handshake succeeds puts the channel last in the group
    of its conversation id, raises the count of that id by one when the id
    is not the empty string, and leaves the other groups alone; a join
    whose handshake raises registers nothing. *)
Theorem connect_registers_last websocket cid reg :
  cid ≠ "" →
  connect false websocket cid reg = None
  ∧ ∃ reg',
      connect true websocket cid reg = Some reg'
      ∧ group_of cid reg' = group_of cid reg ++ [websocket]
      ∧ get_active_connections_count (Some cid) reg'
        = get_active_connections_count (Some cid) reg + 1
      ∧ ∀ other, other ≠ cid → reg' !! other = reg !! other.
Proof.
  intros Hcid. split; [done|]. eexists. split; [reflexivity|].
  assert (group_of cid
            (<[cid := default [] ((match reg !! cid with
                                   | Some _ => reg
                                   | None => <[cid := []]> reg
                                   end) !! cid) ++ [websocket]]>
               (match reg !! cid with
                | Some _ => reg
                | None => <[cid := []]> reg
                end))
          = group_of cid reg ++ [websocket]) as Hgroup.
  { by apply group_of_connect. }
  split; [exact Hgroup|]. split.
  - rewrite !count_of_id by done. rewrite Hgroup, length_app. simpl. lia.
  - intros other Hne. rewrite lookup_insert_ne by done.
    destruct (reg !! cid); [done|]. by rewrite lookup_insert_ne.
Qed.

Lemma connect_registers_last_witness :
  "a" ≠ ""
  ∧ connect false 7%nat "a" reg_2 = None
  ∧ ∃ reg',
      connect true 7%nat "a" reg_2 = Some reg'
      ∧ group_of "a" reg' = group_of "a" reg_2 ++ [7%nat]
      ∧ get_active_connections_count (Some "a") reg'
        = get_active_connections_count (Some "a") reg_2 + 1
      ∧ ∀ other, other ≠ "a" → reg' !! other = reg_2 !! other.
Proof.
  assert ("a" ≠ "") as Hne by discriminate.
  split; [exact Hne|]. exact (connect_registers_last 7%nat "a" reg_2 Hne).
Defined.

(** X22: a pass in which no send to the group raises delivers the payload
    to every channel of the group in order and leaves the registry as it
    was; so does a pass to an id that has no group, which sends nothing. *)
Theorem broadcast_without_failure send_fails cid (message : string) reg :
  (∀ c, c ∈ group_of cid reg → send_fails c = false) →
  broadcast_to_conversation send_fails cid message reg
  = (reg, (λ c, (c, message, true)) <$> group_of cid reg).
Proof.
  intros Hok. rewrite broadcast_result. f_equal.
  - assert (filter (λ c, send_fails c = true) (group_of cid reg) = []) as ->;
      [|done].
    apply elem_of_nil_inv. intros c [Hc Hin]%list_elem_of_filter.
    rewrite (Hok c Hin) in Hc. discriminate.
  - apply list_fmap_ext. intros i c Hc.
    rewrite (Hok c) by (by eapply list_elem_of_lookup_2). done.
Qed.

Lemma broadcast_without_failure_witness :
  (∀ c, c ∈ group_of "a" reg_2 → (λ _, false) c = false)
  ∧ broadcast_to_conversation (λ _, false) "a" "hi" reg_2
    = (reg_2, (λ c, (c, "hi", true)) <$> group_of "a" reg_2).
Proof.
  assert (∀ c, c ∈ group_of "a" reg_2 → (λ _ : WebSocket, false) c = false)
    as H by reflexivity.
  split; [exact H|].
  exact (broadcast_without_failure (λ _, false) "a" "hi" reg_2 H).
Defined.

(** X23: in a registry without empty groups, a pass in which every send to
    the group raises removes the entry of the conversation id, which is
    then no longer among the active conversations. *)
Theorem broadcast_all_failed send_fails cid (message : string) reg :
  no_empty_group reg →
  (∀ c, c ∈ group_of cid reg → send_fails c = true) →
  (broadcast_to_conversation send_fails cid message reg).1 !! cid = None
  ∧ cid ∉ get_active_conversations
            (broadcast_to_conversation send_fails cid message reg).1.
Proof.
  intros Hreg Hfail.
  assert ((broadcast_to_conversation send_fails cid message reg).1 !! cid
          = None) as Hnone.
  { apply lookup_of_group.
    - rewrite broadcast_result. by apply disconnect_all_no_empty_group.
    - rewrite group_of_broadcast. apply elem_of_nil_inv.
      intros c [Hc Hin]%list_elem_of_filter. unfold delivered in Hc.
      rewrite (Hfail c Hin) in Hc. discriminate. }
  split; [exact Hnone|].
  unfold get_active_conversations. intros Hin.
  apply list_elem_of_fmap in Hin as ([k g] & Heq & Hkg%elem_of_map_to_list).
  simpl in Heq. subst k. by rewrite Hnone in Hkg.
Qed.

Lemma broadcast_all_failed_witness :
  no_empty_group reg_2
  ∧ (∀ c, c ∈ group_of "a" reg_2 → (λ _, true) c = true)
  ∧ (broadcast_to_conversation (λ _, true) "a" "hi" reg_2).1 !! "a" = None
  ∧ "a" ∉ get_active_conversations
            (broadcast_to_conversation (λ _, true) "a" "hi" reg_2).1.
Proof.
  assert (no_empty_group reg_2) as Hreg.
  { intros cid group Hg. unfold reg_2 in Hg.
    apply lookup_singleton_Some in Hg as [_ <-]. discriminate. }
  assert (∀ c, c ∈ group_of "a" reg_2 → (λ _ : WebSocket, true) c = true)
    as H by reflexivity.
  split; [exact Hreg|]. split; [exact H|].
  exact (broadcast_all_failed (λ _, true) "a" "hi" reg_2 Hreg H).
Defined.

(** X24: a second pass to the same conversation with the same send
    outcomes changes nothing: the first pass has already removed every
    channel that fails. *)
Theorem broadcast_twice send_fails cid (message message' : string) reg :
  (broadcast_to_conversation send_fails cid message'
     (broadcast_to_conversation send_fails cid message reg).1).1
  = (broadcast_to_conversation send_fails cid message reg).1.
Proof.
  rewrite (broadcast_result send_fails cid message'). simpl.
  rewrite group_of_broadcast.
  assert (filter (λ c, send_fails c = true)
                 (filter (delivered send_fails) (group_of cid reg)) = []) as ->;
    [|done].
  apply elem_of_nil_inv.
  intros c [Hc [Hd _]%list_elem_of_filter]%list_elem_of_filter.
  unfold delivered in Hd. congruence.
Qed.

Lemma foldl_count_groups (l : list (string * list WebSocket)) : ∀ total,
  foldl (λ total (kv : string * list WebSocket),
           total + Z.of_nat (length kv.2)) total l
  = total + Z.of_nat (sum_list ((λ kv, length kv.2) <$> l)).
Proof.
  induction l as [|kv l IH]; intros total; [simpl; lia|].
  rewrite fmap_cons. cbn [foldl]. rewrite IH.
  change (sum_list (length kv.2 :: ((λ kv, length kv.2) <$> l)))
    with (length kv.2 + sum_list ((λ kv : string * list WebSocket,
                                     length kv.2) <$> l))%nat.
  rewrite Nat2Z.inj_add. lia.
Qed.

Lemma sum_list_at_least (l : list nat) :
  Forall (λ n, (1 ≤ n)%nat) l → (length l ≤ sum_list l)%nat.
Proof.
  induction 1 as [|n l Hn _ IH]; simpl; [done|]. lia.
Qed.

(** X25: the count without a conversation id is the sum, over the active
    conversations, of the sizes of their groups; the count for the empty
    string is that same total; and in a registry without empty groups the
    total is at least the number of active conversations. *)
Theorem total_count_sums_groups reg :
  get_active_connections_count None reg
  = Z.of_nat (sum_list ((λ cid, length (group_of cid reg))
                          <$> get_active_conversations reg))
  ∧ get_active_connections_count (Some "") reg
    = get_active_connections_count None reg
  ∧ (no_empty_group reg →
     Z.of_nat (length (get_active_conversations reg))
     ≤ get_active_connections_count None reg).
Proof.
  assert (get_active_connections_count None reg
          = Z.of_nat (sum_list ((λ kv : string * list WebSocket, length kv.2)
                                  <$> map_to_list reg))) as Htotal.
  { unfold get_active_connections_count. by rewrite foldl_count_groups. }
  assert ((λ cid, length (group_of cid reg)) <$> get_active_conversations reg
          = (λ kv : string * list WebSocket, length kv.2) <$> map_to_list reg)
    as Hgroups.
  { unfold get_active_conversations. rewrite <- list_fmap_compose.
    apply list_fmap_ext. intros i [k g] Hkg%list_elem_of_lookup_2.
    apply elem_of_map_to_list in Hkg. simpl. unfold group_of.
    by rewrite Hkg. }
  split; [by rewrite Hgroups|]. split; [done|].
  intros Hreg. rewrite Htotal. unfold get_active_conversations.
  rewrite length_fmap, <- (length_fmap (λ kv : string * list WebSocket,
                                        length kv.2)).
  apply inj_le, sum_list_at_least, Forall_fmap, Forall_forall.
  intros [k g] Hkg%elem_of_map_to_list. simpl.
  specialize (Hreg k g Hkg). destruct g; [done|simpl; lia].
Qed.

(** ** The port scan *)

Lemma scan_ports_spec check remaining : ∀ port,
  match Start.scan_ports check port remaining with
  | Some p =>
      port ≤ p < port + Z.of_nat remaining
      ∧ check p = true
      ∧ ∀ q, port ≤ q < p → check q = false
  | None => ∀ q, port ≤ q < port + Z.of_nat remaining → check q = false
  end.
Proof.
  induction remaining as [|remaining IH]; intros port; simpl.
  - intros q Hq. lia.
  - destruct (check port) eqn:Hport.
    + split; [lia|]. split; [done|]. intros q Hq. lia.
    + specialize (IH (port + 1)).
      destruct (Start.scan_ports check (port + 1) remaining) as [p|].
      * destruct IH as (Hp & Hcheck & Hbelow). split; [lia|]. split; [done|].
        intros q Hq. destruct (decide (q = port)) as [->|Hne]; [done|].
        apply Hbelow. lia.
      * intros q Hq. destruct (decide (q = port)) as [->|Hne]; [done|].
        apply IH. lia.
Qed.

(** X26: the port the start script takes is the lowest free port among
    8100..8119; the script gives up exactly when none of the twenty is
    free. *)
Theorem choose_port_lowest_free check :
  match Start.choose_port check with
  | Some p =>
      8100 ≤ p < 8120
      ∧ check p = true
      ∧ ∀ q, 8100 ≤ q < p → check q = false
  | None => ∀ q, 8100 ≤ q < 8120 → check q = false
  end.
Proof.
  unfold Start.choose_port, Start.start_port.
  pose proof (scan_ports_spec check 20 8100) as Hspec.
  destruct (Start.scan_ports check 8100 20) as [p|].
  - destruct Hspec as (Hp & Hcheck & Hbelow). split; [lia|]. by split.
  - intros q Hq. apply Hspec. lia.
Qed.

(** ** Duplicating a conversation *)

Lemma copy_messages_spec clock new_id msgs : ∀ i d c,
  conversations_of d !! new_id = Some c →
  (m_sender <$> messages_of new_id
                  (ConversationAPI.copy_messages clock i new_id msgs d))
  = (m_sender <$> messages_of new_id d) ++ (m_sender <$> msgs)
  ∧ (m_content <$> messages_of new_id
                     (ConversationAPI.copy_messages clock i new_id msgs d))
    = (m_content <$> messages_of new_id d) ++ (m_content <$> msgs)
  ∧ (sequential_ids (messages_of new_id d) →
     sequential_ids (messages_of new_id
                       (ConversationAPI.copy_messages clock i new_id msgs d)))
  ∧ (∀ other, other ≠ new_id →
       messages_doc (ConversationAPI.copy_messages clock i new_id msgs d)
         !! other = messages_doc d !! other
       ∧ conversations_of (ConversationAPI.copy_messages clock i new_id msgs d)
           !! other = conversations_of d !! other)
  ∧ (∃ c', conversations_of (ConversationAPI.copy_messages clock i new_id msgs d)
             !! new_id = Some c'
           ∧ c_title c' = c_title c
           ∧ c_preset_id c' = c_preset_id c
           ∧ c_created_at c' = c_created_at c)
  ∧ presets_file (ConversationAPI.copy_messages clock i new_id msgs d)
    = presets_file d.
Proof.
  induction msgs as [|m msgs IH]; intros i d c Hc.
  - simpl. rewrite !app_nil_r. do 4 (split; [done|]). split; [|done].
    by exists c.
  - cbn [ConversationAPI.copy_messages].
    rewrite (add_message_found _ _ _ _ _ c Hc). cbn [snd].
    set (msg := mk_message (Z.of_nat (length (messages_of new_id d)) + 1)
                  (m_sender m) (m_content m) (Some (isoformat (clock i)))).
    set (c1 := mk_conversation (c_title c) (c_preset_id c) (c_created_at c)
                 (Some (isoformat (clock i)))).
    set (d1 := mk_disk (Some (<[new_id := c1]> (conversations_of d)))
                 (Some (<[new_id := messages_of new_id d ++ [msg]]>
                          (messages_doc d)))
                 (presets_file d)).
    assert (conversations_of d1 !! new_id = Some c1) as Hc1.
    { unfold conversations_of, d1. simpl. by rewrite lookup_insert_eq. }
    assert (messages_of new_id d1 = messages_of new_id d ++ [msg]) as Hm1.
    { unfold messages_of at 1, messages_doc, d1. simpl.
      by rewrite lookup_insert_eq. }
    destruct (IH (S i) d1 c1 Hc1) as (Hs & Hct & Hseq & Hother & Hconv & Hp).
    rewrite Hm1 in Hs, Hct, Hseq.
    split; [by rewrite Hs, fmap_app, <- app_assoc|].
    split; [by rewrite Hct, fmap_app, <- app_assoc|].
    split; [intros Hd; by apply Hseq, sequential_ids_snoc|].
    split; [|split; [|done]].
    + intros other Hne. destruct (Hother other Hne) as [-> ->].
      unfold messages_doc at 1, conversations_of at 1, d1. simpl.
      by rewrite !lookup_insert_ne.
    + destruct Hconv as (c' & Hc' & Ht & Hpr & Hcr). by exists c'.
Qed.

(** X27: duplicating a stored conversation under a fresh id answers with
    that id and the number of copied messages; the copy holds the senders
    and the contents of the original's messages in listing order, under the
    ids [1..n]; it has the original's preset, and the given title or, when
    none is given, the original title followed by the copy mark; the
    original conversation and its messages are as they were. *)
Theorem duplicate_conversation_copies clock new_id cid new_title d conv :
  conversations_of d !! cid = Some conv →
  conversations_of d !! new_id = None →
  messages_doc d !! new_id = None →
  ∃ r d' copy,
    ConversationAPI.duplicate_conversation clock new_id cid new_title d
    = (inr r, d')
    ∧ ConversationAPI.dup_id r = new_id
    ∧ ConversationAPI.dup_message_count r
      = Z.of_nat (length (messages_of cid d))
    ∧ ConversationAPI.dup_created_at r = isoformat (clock 0%nat)
    ∧ (m_sender <$> messages_of new_id d')
      = (m_sender <$> get_messages cid None d)
    ∧ (m_content <$> messages_of new_id d')
      = (m_content <$> get_messages cid None d)
    ∧ sequential_ids (messages_of new_id d')
    ∧ conversations_of d' !! new_id = Some copy
    ∧ c_preset_id copy = c_preset_id conv
    ∧ c_title copy
      = (if LMStudioClient.truthy_string new_title then default "" new_title
         else String.append (c_title conv) ConversationAPI.copy_suffix)
    ∧ ConversationAPI.dup_title r = c_title copy
    ∧ conversations_of d' !! cid = Some conv
    ∧ messages_of cid d' = messages_of cid d.
Proof.
  intros Hconv Hfresh Hfreshm.
  assert (cid ≠ new_id) as Hne by (intros ->; congruence).
  unfold ConversationAPI.duplicate_conversation, get_conversation.
  change (_load_json (conversations_file d)) with (conversations_of d).
  rewrite Hconv. cbn [snd fst].
  set (title := match new_title with
                | Some t =>
                    if String.eqb t ""
                    then String.append (c_title conv) ConversationAPI.copy_suffix
                    else t
                | None => String.append (c_title conv) ConversationAPI.copy_suffix
                end).
  unfold create_conversation.
  change (_load_json (conversations_file d)) with (conversations_of d).
  set (c0 := mk_conversation title (c_preset_id conv)
               (Some (isoformat (clock 0%nat))) (Some (isoformat (clock 0%nat)))).
  set (d1 := save_conversations (<[new_id := c0]> (conversations_of d)) d).
  assert (conversations_of d1 !! new_id = Some c0) as Hc0.
  { unfold conversations_of, d1. simpl. by rewrite lookup_insert_eq. }
  assert (get_messages cid None d1 = get_messages cid None d) as Hget
    by reflexivity.
  rewrite Hget.
  destruct (copy_messages_spec clock new_id (get_messages cid None d) 1 d1 c0 Hc0)
    as (Hs & Hct & Hseq & Hother & (c' & Hc' & Ht & Hpr & Hcr) & Hp).
  assert (messages_of new_id d1 = []) as Hempty.
  { unfold messages_of, messages_doc, d1. simpl.
    unfold messages_doc in Hfreshm. by rewrite Hfreshm. }
  rewrite Hempty in Hs, Hct, Hseq. simpl in Hs, Hct.
  change (_load_json (conversations_file ?x)) with (conversations_of x).
  rewrite Hc'. cbn [snd fst]. rewrite Hcr. simpl.
  eexists _, _, c'. split; [reflexivity|]. simpl.
  split; [done|].
  split; [by rewrite (Permutation_length (get_messages_perm cid d))|].
  split; [done|]. split; [done|]. split; [done|].
  split; [by apply Hseq|]. split; [done|]. split; [done|].
  split.
  { rewrite Ht. unfold title, LMStudioClient.truthy_string.
    destruct new_title as [t|]; [|done]. simpl.
    by destruct (String.eqb t ""). }
  split; [done|].
  destruct (Hother cid Hne) as [Hm Hcv]. split.
  - rewrite Hcv. unfold conversations_of, d1. simpl.
    rewrite lookup_insert_ne by done. exact Hconv.
  - unfold messages_of. by rewrite Hm.
Qed.

Lemma duplicate_conversation_copies_witness :
  conversations_of disk_1 !! "c1" = Some conv_1
  ∧ conversations_of disk_1 !! "c9" = None
  ∧ messages_doc disk_1 !! "c9" = None
  ∧ ∃ r d' copy,
      ConversationAPI.duplicate_conversation clock_1 "c9" "c1" None disk_1
      = (inr r, d')
      ∧ ConversationAPI.dup_id r = "c9"
      ∧ ConversationAPI.dup_message_count r
        = Z.of_nat (length (messages_of "c1" disk_1))
      ∧ ConversationAPI.dup_created_at r = isoformat (clock_1 0%nat)
      ∧ (m_sender <$> messages_of "c9" d')
        = (m_sender <$> get_messages "c1" None disk_1)
      ∧ (m_content <$> messages_of "c9" d')
        = (m_content <$> get_messages "c1" None disk_1)
      ∧ sequential_ids (messages_of "c9" d')
      ∧ conversations_of d' !! "c9" = Some copy
      ∧ c_preset_id copy = c_preset_id conv_1
      ∧ c_title copy
        = (if LMStudioClient.truthy_string None then default "" None
           else String.append (c_title conv_1) ConversationAPI.copy_suffix)
      ∧ ConversationAPI.dup_title r = c_title copy
      ∧ conversations_of d' !! "c1" = Some conv_1
      ∧ messages_of "c1" d' = messages_of "c1" disk_1.
Proof.
  split; [reflexivity|]. split; [reflexivity|]. split; [reflexivity|].
  apply (duplicate_conversation_copies clock_1 "c9" "c1" None disk_1 conv_1);
    reflexivity.
Defined.

(** ** The chat client *)

Lemma get_or_create_existing now new_id cid preset_id d conv :
  cid ≠ "" →
  conversations_of d !! cid = Some conv →
  ∃ c_ret d0 c0,
    LMStudioClient._get_or_create_conversation now new_id (Some cid)
      preset_id d = (Some (cid, c_ret), d0)
    ∧ messages_file d0 = messages_file d
    ∧ presets_file d0 = presets_file d
    ∧ conversations_of d0 !! cid = Some c0
    ∧ ∀ other, other ≠ cid →
        conversations_of d0 !! other = conversations_of d !! other.
Proof.
  intros Hcid Hconv. unfold LMStudioClient._get_or_create_conversation.
  assert (LMStudioClient.truthy_string (Some cid) = true) as ->.
  { simpl. by destruct (String.eqb_spec cid ""). }
  simpl. unfold get_conversation.
  change (_load_json (conversations_file d)) with (conversations_of d).
  rewrite Hconv. simpl.
  destruct (LMStudioClient.truthy_int preset_id
            && negb (bool_decide (c_preset_id conv = preset_id))).
  - unfold update_conversation.
    change (_load_json (conversations_file d)) with (conversations_of d).
    rewrite Hconv. simpl. eexists _, _, _. split; [reflexivity|].
    split; [done|]. split; [done|]. unfold conversations_of. simpl.
    split; [by rewrite lookup_insert_eq|].
    intros other Hne. by rewrite lookup_insert_ne.
  - eexists _, _, _. split; [reflexivity|]. by repeat split.
Qed.

(** X28: a chat turn on a stored conversation sends upstream the context
    built from the stored state, stores the user's message first and, when
    the upstream call returns, the reply after it as an ["ai"] message; when
    the call raises, the turn raises with the user's message already
    stored and no reply.  Presets, other conversations and their messages
    are not touched. *)
Theorem get_response_stores_turn call_api now now_user now_ai new_id message
    cid preset_id d conv :
  cid ≠ "" →
  conversations_of d !! cid = Some conv →
  ∃ d',
    LMStudioClient.get_response call_api now now_user now_ai new_id message
      (Some cid) preset_id d
    = (call_api
         (LMStudioClient.build_messages
            (if LMStudioClient.truthy_int preset_id
             then get_preset (default 0 preset_id) d else None)
            (get_messages cid (Some 10) d) message),
       d')
    ∧ messages_of cid d'
      = messages_of cid d
        ++ mk_message (Z.of_nat (length (messages_of cid d)) + 1) "user"
                      message (Some (isoformat now_user))
        :: match call_api
                   (LMStudioClient.build_messages
                      (if LMStudioClient.truthy_int preset_id
                       then get_preset (default 0 preset_id) d else None)
                      (get_messages cid (Some 10) d) message) with
           | Some reply =>
               [mk_message (Z.of_nat (length (messages_of cid d)) + 2) "ai"
                           reply (Some (isoformat now_ai))]
           | None => []
           end
    ∧ presets_file d' = presets_file d
    ∧ ∀ other, other ≠ cid →
        conversations_of d' !! other = conversations_of d !! other
        ∧ messages_doc d' !! other = messages_doc d !! other.
Proof.
  intros Hcid Hconv.
  destruct (get_or_create_existing now new_id cid preset_id d conv Hcid Hconv)
    as (c_ret & d0 & c0 & Hstep & Hmsgs & Hpresets & Hc0 & Hothers).
  unfold LMStudioClient.get_response. rewrite Hstep. cbn [fst snd].
  assert (messages_doc d0 = messages_doc d) as Hdoc
    by (unfold messages_doc; by rewrite Hmsgs).
  assert (∀ id, get_preset id d0 = get_preset id d) as Hpreset
    by (intros id; unfold get_preset; by rewrite Hpresets).
  assert (∀ limit, get_messages cid limit d0 = get_messages cid limit d)
    as Hhistory by (intros limit; unfold get_messages; by rewrite Hmsgs).
  assert (messages_of cid d0 = messages_of cid d) as Hof
    by (unfold messages_of; by rewrite Hdoc).
  rewrite Hhistory.
  assert ((if LMStudioClient.truthy_int preset_id
           then get_preset (default 0 preset_id) d0 else None)
          = (if LMStudioClient.truthy_int preset_id
             then get_preset (default 0 preset_id) d else None)) as ->.
  { destruct (LMStudioClient.truthy_int preset_id); [apply Hpreset|done]. }
  set (prompt := LMStudioClient.build_messages _ _ message).
  rewrite (add_message_found _ _ _ _ _ c0 Hc0). cbn [snd].
  rewrite Hof, Hdoc.
  set (user := mk_message (Z.of_nat (length (messages_of cid d)) + 1) "user"
                 message (Some (isoformat now_user))).
  destruct (call_api prompt) as [reply|].
  - match goal with |- context [add_message now_ai cid "ai" reply ?d1] =>
      set (d_user := d1) end.
    assert (conversations_of d_user !! cid
            = Some (mk_conversation (c_title c0) (c_preset_id c0)
                      (c_created_at c0) (Some (isoformat now_user)))) as Hcu.
    { unfold conversations_of, d_user. simpl. by rewrite lookup_insert_eq. }
    assert (messages_of cid d_user = messages_of cid d ++ [user]) as Hmu.
    { unfold messages_of at 1, messages_doc, d_user. simpl.
      by rewrite lookup_insert_eq. }
    rewrite (add_message_found _ _ _ _ _ _ Hcu). cbn [snd].
    eexists. split; [reflexivity|]. rewrite Hmu.
    unfold messages_of at 1, messages_doc at 1, conversations_of at 1. simpl.
    rewrite lookup_insert_eq. simpl. split.
    { rewrite length_app, <- app_assoc.
      assert (Z.of_nat (length (messages_of cid d) + length [user]) + 1
              = Z.of_nat (length (messages_of cid d)) + 2) as ->
        by (simpl; lia).
      reflexivity. }
    split; [done|]. intros other Hne. subst d_user.
    repeat change (conversations_of (mk_disk (Some ?x) ?m ?ps)) with x.
    repeat change (messages_doc (mk_disk ?c (Some ?x) ?ps)) with x.
    rewrite !lookup_insert_ne by done. split; [by apply Hothers|done].
  - eexists. split; [reflexivity|].
    unfold messages_of at 1.
    repeat change (conversations_of (mk_disk (Some ?x) ?m ?ps)) with x.
    repeat change (messages_doc (mk_disk ?c (Some ?x) ?ps)) with x.
    rewrite lookup_insert_eq. simpl. split; [done|]. split; [done|].
    intros other Hne. rewrite !lookup_insert_ne by done.
    split; [by apply Hothers|done].
Qed.

Lemma get_response_stores_turn_witness :
  "c1" ≠ ""
  ∧ conversations_of disk_1 !! "c1" = Some conv_1
  ∧ ∃ d',
      LMStudioClient.get_response api_1 next_day next_day next_day "c9" "ping"
        (Some "c1") None disk_1
      = (api_1
           (LMStudioClient.build_messages
              (if LMStudioClient.truthy_int None
               then get_preset (default 0 None) disk_1 else None)
              (get_messages "c1" (Some 10) disk_1) "ping"),
         d')
      ∧ messages_of "c1" d'
        = messages_of "c1" disk_1
          ++ mk_message (Z.of_nat (length (messages_of "c1" disk_1)) + 1)
                        "user" "ping" (Some (isoformat next_day))
          :: match api_1
                     (LMStudioClient.build_messages
                        (if LMStudioClient.truthy_int None
                         then get_preset (default 0 None) disk_1 else None)
                        (get_messages "c1" (Some 10) disk_1) "ping") with
             | Some reply =>
                 [mk_message (Z.of_nat (length (messages_of "c1" disk_1)) + 2)
                             "ai" reply (Some (isoformat next_day))]
             | None => []
             end
      ∧ presets_file d' = presets_file disk_1
      ∧ ∀ other, other ≠ "c1" →
          conversations_of d' !! other = conversations_of disk_1 !! other
          ∧ messages_doc d' !! other = messages_doc disk_1 !! other.
Proof.
  assert ("c1" ≠ "") as Hne by discriminate.
  split; [exact Hne|]. split; [reflexivity|].
  exact (get_response_stores_turn api_1 next_day next_day next_day "c9" "ping"
           "c1" None disk_1 conv_1 Hne eq_refl).
Defined.

Lemma length_get_messages_limit cid n d :
  0 < n →
  length (get_messages cid (Some n) d)
  = Nat.min (Z.to_nat n) (length (messages_of cid d)).
Proof.
  intros Hn. unfold get_messages, messages_of, messages_doc.
  destruct (_load_json (messages_file d) !! cid) as [l|]; simpl; [|lia].
  destruct (Z.eqb_spec n 0); [lia|]. unfold Py.slice_from.
  destruct (Z.ltb_spec (- n) 0); [|lia].
  rewrite length_drop, (Permutation_length (sort_by_perm message_key l)). lia.
Qed.

(** X29: the context of a chat turn is the system prompt, then one entry
    for each of the ten latest stored messages at most, then the user's new
    message: never more than twelve entries.  The system prompt is the
    preset's when a preset was found and the fixed default otherwise. *)
Theorem chat_context_bounded preset cid message d :
  let context :=
    LMStudioClient.build_messages preset (get_messages cid (Some 10) d)
                                  message in
  length context = (2 + Nat.min 10 (length (messages_of cid d)))%nat
  ∧ (length context ≤ 12)%nat
  ∧ head context
    = Some (LMStudioClient.mk_chat_message "system"
              (match preset with
               | Some p => p_system_prompt p.2
               | None => LMStudioClient.default_system_prompt
               end))
  ∧ last context = Some (LMStudioClient.mk_chat_message "user" message)
  ∧ Forall (λ m, LMStudioClient.role m = "user"
                 ∨ LMStudioClient.role m = "assistant")
           (tail context).
Proof.
  unfold LMStudioClient.build_messages. cbn zeta.
  assert (length (get_messages cid (Some 10) d)
          = Nat.min 10 (length (messages_of cid d))) as Hlen
    by (by rewrite length_get_messages_limit).
  rewrite !length_app, length_fmap, Hlen. cbn [length].
  split; [lia|]. split; [lia|]. split; [done|]. split.
  - first [by rewrite app_assoc, last_snoc
          | by rewrite app_comm_cons, last_snoc].
  - apply Forall_app. split.
    + apply Forall_fmap, Forall_forall. intros m _. simpl.
      destruct (String.eqb (m_sender m) "user"); [by left|by right].
    + constructor; [by left|constructor].
Qed.

(** ** The default presets *)

Lemma next_id_after_1 (p1 : Preset) :
  Py.max_default0 (existing_ids {["1" := p1]}) + 1 = 2.
Proof. by vm_compute. Qed.

Lemma next_id_after_2 (p1 p2 : Preset) :
  Py.max_default0 (existing_ids (<["2" := p2]> {["1" := p1]})) + 1 = 3.
Proof. by vm_compute. Qed.

Lemma create_preset_at now name description system_prompt is_active
    parameters d m k :
  presets_of d = m →
  Py.max_default0 (existing_ids m) + 1 = k →
  create_preset now name description system_prompt is_active parameters d
  = (k, mk_disk (conversations_file d) (messages_file d)
          (Some (<[Py.str k :=
                     mk_preset name description system_prompt
                       (default true is_active) (default ∅ parameters)
                       (Some (isoformat now)) (Some (isoformat now))]> m))).
Proof. unfold presets_of, create_preset. by intros -> <-. Qed.

Lemma create_defaults_presets clock d :
  presets_of d = ∅ →
  ∃ p1 p2 p3,
    Main.create_defaults clock 0 Main.default_presets d
    = mk_disk (conversations_file d) (messages_file d)
              (Some (<["3" := p3]> (<["2" := p2]> {["1" := p1]})))
    ∧ Forall2 (λ (entry : string * string * string) (p : nat * Preset),
                 p.2 = mk_preset entry.1.1 entry.1.2 entry.2 true ∅
                         (Some (isoformat (clock p.1)))
                         (Some (isoformat (clock p.1))))
              Main.default_presets [(0%nat, p1); (1%nat, p2); (2%nat, p3)].
Proof.
  intros Hempty. unfold Main.default_presets. cbn [Main.create_defaults].
  rewrite (create_preset_at (clock 0%nat) _ _ _ _ _ d ∅ 1 Hempty eq_refl).
  cbn [fst snd].
  erewrite (create_preset_at (clock 1%nat) _ _ _ _ _ _ _ 2 eq_refl);
    [|apply next_id_after_1].
  cbn [fst snd conversations_file messages_file].
  erewrite (create_preset_at (clock 2%nat) _ _ _ _ _ _ _ 3 eq_refl);
    [|apply next_id_after_2].
  cbn [fst snd conversations_file messages_file].
  eexists _, _, _. split; [reflexivity|].
  repeat constructor.
Qed.

Lemma lookup_three (p1 p2 p3 : Preset) id :
  (<["3" := p3]> (<["2" := p2]> ({["1" := p1]} : gmap string Preset)))
    !! Py.str id
  = if decide (id = 3) then Some p3
    else if decide (id = 2) then Some p2
    else if decide (id = 1) then Some p1 else None.
Proof.
  destruct (decide (id = 3)) as [->|H3]; [by rewrite lookup_insert_eq|].
  rewrite lookup_insert_ne
    by (change "3" with (Py.str 3); intros Heq; by apply str_inj in Heq).
  destruct (decide (id = 2)) as [->|H2]; [by rewrite lookup_insert_eq|].
  rewrite lookup_insert_ne
    by (change "2" with (Py.str 2); intros Heq; by apply str_inj in Heq).
  destruct (decide (id = 1)) as [->|H1]; [by rewrite lookup_singleton_eq|].
  apply lookup_singleton_ne.
  change "1" with (Py.str 1). intros Heq. by apply str_inj in Heq.
Qed.

(** X30: on a store without presets [init_storage] creates the three
    default presets under the ids 1, 2 and 3, in the order of the list,
    active and without parameters, and touches nothing else; run again on
    the store it has left, it changes nothing. *)
Theorem init_storage_defaults_once clock clock' d :
  presets_of d = ∅ →
  ∃ d',
    Main.init_storage clock d = Some d'
    ∧ (∀ id, is_Some (get_preset id d') ↔ 1 ≤ id ≤ 3)
    ∧ (∀ i entry, Main.default_presets !! i = Some entry →
         get_preset (Z.of_nat i + 1) d'
         = Some (Z.of_nat i + 1,
                 mk_preset entry.1.1 entry.1.2 entry.2 true ∅
                   (Some (isoformat (clock i))) (Some (isoformat (clock i)))))
    ∧ conversations_file d' = conversations_file d
    ∧ messages_file d' = messages_file d
    ∧ Main.init_storage clock' d' = Some d'.
Proof.
  intros Hempty.
  destruct (create_defaults_presets clock d Hempty)
    as (p1 & p2 & p3 & Hd' & Hall).
  assert (Main.init_storage clock d
          = Some (Main.create_defaults clock 0 Main.default_presets d)) as Hinit.
  { unfold Main.init_storage. rewrite get_presets_unfold, Hempty.
    by rewrite map_to_list_empty. }
  rewrite Hinit, Hd'. eexists. split; [reflexivity|].
  set (d' := mk_disk _ _ _).
  assert (∀ id, get_preset id d'
                = (λ p, (id, p)) <$>
                  (if decide (id = 3) then Some p3
                   else if decide (id = 2) then Some p2
                   else if decide (id = 1) then Some p1 else None)) as Hget.
  { intros id. unfold get_preset, d'. simpl. rewrite lookup_three.
    by repeat case_decide. }
  apply Forall2_cons_1 in Hall as [H1 Hall].
  apply Forall2_cons_1 in Hall as [H2 Hall].
  apply Forall2_cons_1 in Hall as [H3 _].
  simpl in H1, H2, H3.
  split; [|split; [|split; [done|split; [done|]]]].
  - intros id. rewrite Hget.
    destruct (decide (id = 3)) as [->|?]; [split; [lia|by eexists]|].
    destruct (decide (id = 2)) as [->|?]; [split; [lia|by eexists]|].
    destruct (decide (id = 1)) as [->|?]; [split; [lia|by eexists]|].
    simpl. split; [by intros [? ?]|lia].
  - intros i entry Hentry. rewrite Hget.
    destruct i as [|[|[|i]]]; simpl in Hentry; [| | |done];
      injection Hentry as <-; simpl.
    + by rewrite H1.
    + by rewrite H2.
    + by rewrite H3.
  - assert (integer_keys d') as Hkeys.
    { intros k [p Hk]. unfold presets_of, d' in Hk. simpl in Hk.
      apply lookup_insert_Some in Hk as [[<- _]|[_ Hk]];
        [exists 3; split; [lia|done]|].
      apply lookup_insert_Some in Hk as [[<- _]|[_ Hk]];
        [exists 2; split; [lia|done]|].
      apply lookup_singleton_Some in Hk as [<- _].
      exists 1. split; [lia|done]. }
    destruct (get_presets_integer_keys d' Hkeys) as (presets & Hpresets & Hin).
    unfold Main.init_storage. rewrite Hpresets. simpl.
    destruct (Hin "3" p3) as [id Hid].
    { unfold presets_of, d'. simpl. by rewrite lookup_insert_eq. }
    destruct presets; [by apply elem_of_nil in Hid|done].
Qed.

Lemma init_storage_defaults_once_witness :
  presets_of (mk_disk None None None) = ∅
  ∧ ∃ d',
      Main.init_storage clock_1 (mk_disk None None None) = Some d'
      ∧ (∀ id, is_Some (get_preset id d') ↔ 1 ≤ id ≤ 3)
      ∧ (∀ i entry, Main.default_presets !! i = Some entry →
           get_preset (Z.of_nat i + 1) d'
           = Some (Z.of_nat i + 1,
                   mk_preset entry.1.1 entry.1.2 entry.2 true ∅
                     (Some (isoformat (clock_1 i)))
                     (Some (isoformat (clock_1 i)))))
      ∧ conversations_file d' = conversations_file (mk_disk None None None)
      ∧ messages_file d' = messages_file (mk_disk None None None)
      ∧ Main.init_storage clock_1 d' = Some d'.
Proof.
  split; [reflexivity|].
  apply (init_storage_defaults_once clock_1 clock_1 (mk_disk None None None)).
  reflexivity.
Defined.
